(** * Vector3D part 2 (surfaces and perspective): a shallow embedding

    The program keeps its numbers in numpy float arrays.  The embedding
    computes over the real numbers: [R] stands for a float, every
    arithmetic operation is the exact one, and rounding is left out
    (module [Binary64] keeps one rounded computation for comparison).
    Arrays of a fixed width (angles, positions, matrix rows, nodes) are
    tuples; the node dimension N is a list of rows.

    Python objects are mutable.  Surfaces are only ever written through
    [setZPos], with a value recomputed from the owning object just
    before it is read, so a list of surface records behaves as the list
    of surface objects does.  Vector objects are mutated by the viewer
    through references held in [VectorObjs]; the viewer therefore
    carries a store of objects and a list of references into it. *)

From Stdlib Require Import Reals Lra List ZArith Lia Bool Floats.
From Stdlib Require Import Permutation Sorted.
Import ListNotations.

Open Scope R_scope.

(** ** Exceptions and outcomes *)

(** The exceptions the modelled code can raise. *)
Inductive exn : Type :=
| IndexError
| ZeroDivisionError.

(** A procedure on a state [S] either finishes or raises; in both
    cases the state reached so far is kept, as mutations made before
    a raise are not undone. *)
Inductive outcome (S : Type) : Type :=
| Done (s : S)
| Raised (e : exn) (s : S).

Arguments Done {S} s.
Arguments Raised {S} e s.

Definition state_of {S : Type} (o : outcome S) : S :=
  match o with
  | Done s => s
  | Raised _ s => s
  end.

Definition proc (S : Type) : Type := S -> outcome S.

Definition pure_step {S : Type} (f : S -> S) : proc S :=
  fun s => Done (f s).

Definition and_then {S : Type} (p q : proc S) : proc S :=
  fun s =>
    match p s with
    | Done s' => q s'
    | Raised e s' => Raised e s'
    end.

Notation "p ;; q" := (and_then p q) (at level 61, right associativity).

(** [for x in l: body x] *)
Fixpoint for_each {A S : Type} (body : A -> proc S) (l : list A) : proc S :=
  match l with
  | [] => fun s => Done s
  | x :: rest => body x ;; for_each body rest
  end.

(** ** The numpy operations the program uses *)

Module Np.

Definition vec2 : Type := (R * R)%type.
Definition vec3 : Type := (R * R * R)%type.
Definition vec4 : Type := (R * R * R * R)%type.
(** A 3x3 array, by rows. *)
Definition mat33 : Type := (vec3 * vec3 * vec3)%type.
(** A 4x3 array, by rows. *)
Definition mat43 : Type := (vec3 * vec3 * vec3 * vec3)%type.

Definition zeros3 : vec3 := (0, 0, 0).
Definition zeros33 : mat33 := (zeros3, zeros3, zeros3).

(** [v[i]] for [i] in [range(3)]. *)
Definition get3 (v : vec3) (i : nat) : R :=
  let '(x, y, z) := v in
  match i with
  | O => x
  | S O => y
  | _ => z
  end.

(** [v[i] = a] for [i] in [range(3)]. *)
Definition set3 (v : vec3) (i : nat) (a : R) : vec3 :=
  let '(x, y, z) := v in
  match i with
  | O => (a, y, z)
  | S O => (x, a, z)
  | _ => (x, y, a)
  end.

(** Element-wise [u + v]. *)
Definition add3 (u v : vec3) : vec3 :=
  let '(a, b, c) := u in
  let '(x, y, z) := v in
  (a + x, b + y, c + z).

(** [v * k] for a scalar [k]. *)
Definition scale3 (v : vec3) (k : R) : vec3 :=
  let '(x, y, z) := v in (x * k, y * k, z * k).

Definition sin3 (v : vec3) : vec3 :=
  let '(x, y, z) := v in (sin x, sin y, sin z).

Definition cos3 (v : vec3) : vec3 :=
  let '(x, y, z) := v in (cos x, cos y, cos z).

(** [p[0:3]] of a four-component array. *)
Definition slice03 (p : vec4) : vec3 :=
  let '(x, y, z, _) := p in (x, y, z).

(** [np.hstack((node_array, np.ones((len(node_array), 1))))] *)
Definition hstack_ones (node_array : list vec3) : list vec4 :=
  map (fun v : vec3 => let '(x, y, z) := v in (x, y, z, 1)) node_array.

(** [np.vstack((m, r))] of a 3x3 array and a row of three. *)
Definition vstack (m : mat33) (r : vec3) : mat43 :=
  let '(r0, r1, r2) := m in (r0, r1, r2, r).

(** One row of [np.dot]: the row [v] of four times a 4x3 array, the sum
    over k of [v[k] * m[k][j]] in every column j. *)
Definition row_dot43 (v : vec4) (m : mat43) : vec3 :=
  let '(a, b, c, d) := v in
  let '(r0, r1, r2, r3) := m in
  let '(r00, r01, r02) := r0 in
  let '(r10, r11, r12) := r1 in
  let '(r20, r21, r22) := r2 in
  let '(r30, r31, r32) := r3 in
  (a * r00 + b * r10 + c * r20 + d * r30,
   a * r01 + b * r11 + c * r21 + d * r31,
   a * r02 + b * r12 + c * r22 + d * r32).

(** [np.dot(a, m)] of an Nx4 array and a 4x3 array. *)
Definition dot (a : list vec4) (m : mat43) : list vec3 :=
  map (fun v => row_dot43 v m) a.

(** [a[i]] on the first axis: an index from [-len(a)] to [len(a) - 1]
    is accepted, a negative one counts from the end, and any other
    raises IndexError. *)
Definition index {A : Type} (a : list A) (i : Z) : option A :=
  let n := Z.of_nat (length a) in
  if (0 <=? i)%Z then nth_error a (Z.to_nat i)
  else if (- n <=? i)%Z then nth_error a (Z.to_nat (n + i))
  else None.

End Np.

Import Np.

(** Python's [sum(l)]: starts from 0 and adds from the left. *)
Definition py_sum (l : list R) : R := fold_left Rplus l 0.

(** ** list.sort(key=..., reverse=True)

    The sort is the interpreter's, not the program's.  Its contract is
    modelled by an insertion sort that compares keys with [<] only and
    keeps equal keys in the order met; with [reverse=True] the
    interpreter reverses the list, sorts it ascending and reverses the
    result. *)

Section PySort.

Context {A : Type}.
Variable key : A -> R.

Fixpoint insert_by_key (x : A) (l : list A) : list A :=
  match l with
  | [] => [x]
  | y :: rest =>
      if Rlt_dec (key y) (key x) then y :: insert_by_key x rest
      else x :: y :: rest
  end.

Definition sort_ascending (l : list A) : list A :=
  fold_right insert_by_key [] l.

Definition py_sort_reverse (l : list A) : list A :=
  rev (sort_ascending (rev l)).

End PySort.

(** ** class VectorObjectSurface *)

Module VectorObjectSurface.

Definition color_t : Type := (Z * Z * Z)%type.

Record t : Type := mk {
  idnum : Z;
  nodes : list Z;
  color : color_t;
  edgeWidth : Z;
  zpos : R
}.

Definition init : t :=
  {| idnum := 0; nodes := []; color := (0, 0, 0)%Z; edgeWidth := 0; zpos := 0 |}.

Definition setZPos (self : t) (z : R) : t :=
  {| idnum := idnum self; nodes := nodes self; color := color self;
     edgeWidth := edgeWidth self; zpos := z |}.

End VectorObjectSurface.

(** ** class VectorObject *)

Module VectorObject.

Module Surface := VectorObjectSurface.

Record t : Type := mk {
  position : vec4;
  angles : vec3;
  rotationMatrix : mat33;
  rotateSpeed : vec3;
  nodes : list vec4;
  rotatedNodes : list vec3;
  transNodes : list vec2;
  surfaces : list Surface.t;
  minShade : R
}.

(** [self.angleScale]: written once by the constructor, read by
    [setRotationMatrix], never written again. *)
Definition angleScale : R := (2 * PI) / 360.

Definition init : t :=
  {| position := (0, 0, 0, 1);
     angles := zeros3;
     rotationMatrix := zeros33;
     rotateSpeed := zeros3;
     nodes := [];
     rotatedNodes := [];
     transNodes := [];
     surfaces := [];
     minShade := 2 / 10 |}.

Definition set_position (self : t) (p : vec4) : t :=
  {| position := p; angles := angles self;
     rotationMatrix := rotationMatrix self; rotateSpeed := rotateSpeed self;
     nodes := nodes self; rotatedNodes := rotatedNodes self;
     transNodes := transNodes self; surfaces := surfaces self;
     minShade := minShade self |}.

Definition set_angles (self : t) (a : vec3) : t :=
  {| position := position self; angles := a;
     rotationMatrix := rotationMatrix self; rotateSpeed := rotateSpeed self;
     nodes := nodes self; rotatedNodes := rotatedNodes self;
     transNodes := transNodes self; surfaces := surfaces self;
     minShade := minShade self |}.

Definition set_rotationMatrix (self : t) (m : mat33) : t :=
  {| position := position self; angles := angles self;
     rotationMatrix := m; rotateSpeed := rotateSpeed self;
     nodes := nodes self; rotatedNodes := rotatedNodes self;
     transNodes := transNodes self; surfaces := surfaces self;
     minShade := minShade self |}.

Definition set_rotateSpeed (self : t) (v : vec3) : t :=
  {| position := position self; angles := angles self;
     rotationMatrix := rotationMatrix self; rotateSpeed := v;
     nodes := nodes self; rotatedNodes := rotatedNodes self;
     transNodes := transNodes self; surfaces := surfaces self;
     minShade := minShade self |}.

Definition set_nodes (self : t) (n : list vec4) : t :=
  {| position := position self; angles := angles self;
     rotationMatrix := rotationMatrix self; rotateSpeed := rotateSpeed self;
     nodes := n; rotatedNodes := rotatedNodes self;
     transNodes := transNodes self; surfaces := surfaces self;
     minShade := minShade self |}.

Definition set_rotatedNodes (self : t) (n : list vec3) : t :=
  {| position := position self; angles := angles self;
     rotationMatrix := rotationMatrix self; rotateSpeed := rotateSpeed self;
     nodes := nodes self; rotatedNodes := n;
     transNodes := transNodes self; surfaces := surfaces self;
     minShade := minShade self |}.

Definition set_transNodes (self : t) (n : list vec2) : t :=
  {| position := position self; angles := angles self;
     rotationMatrix := rotationMatrix self; rotateSpeed := rotateSpeed self;
     nodes := nodes self; rotatedNodes := rotatedNodes self;
     transNodes := n; surfaces := surfaces self;
     minShade := minShade self |}.

Definition set_surfaces (self : t) (s : list Surface.t) : t :=
  {| position := position self; angles := angles self;
     rotationMatrix := rotationMatrix self; rotateSpeed := rotateSpeed self;
     nodes := nodes self; rotatedNodes := rotatedNodes self;
     transNodes := transNodes self; surfaces := s;
     minShade := minShade self |}.

Definition setPosition (self : t) (position : vec4) : t :=
  set_position self position.

Definition setRotateSpeed (self : t) (angles : vec3) : t :=
  set_rotateSpeed self angles.

Definition addNodes (self : t) (node_array : list vec3) : t :=
  set_rotatedNodes (set_nodes self (hstack_ones node_array)) node_array.

Definition addSurfaces (self : t) (idnum : Z) (color : Surface.color_t)
    (edgeWidth : Z) (node_list : list Z) : t :=
  let surface :=
    {| Surface.idnum := idnum; Surface.nodes := node_list;
       Surface.color := color; Surface.edgeWidth := edgeWidth;
       Surface.zpos := Surface.zpos Surface.init |} in
  set_surfaces self (surfaces self ++ [surface]).

(** The body of the loop of [increaseAngles] at index [i]: two
    independent [if]s, the second reading what the first wrote. *)
Definition wrap_at (a : vec3) (i : nat) : vec3 :=
  let a1 := if Rge_dec (get3 a i) 360 then set3 a i (get3 a i - 360) else a in
  if Rlt_dec (get3 a1 i) 0 then set3 a1 i (get3 a1 i + 360) else a1.

Definition increaseAngles (self : t) : t :=
  let a := add3 (angles self) (rotateSpeed self) in
  set_angles self (fold_left wrap_at (seq 0 3) a).

Definition setRotationMatrix (self : t) : t :=
  let '(sx, sy, sz) := sin3 (scale3 (angles self) angleScale) in
  let '(cx, cy, cz) := cos3 (scale3 (angles self) angleScale) in
  set_rotationMatrix self
    ((cy * cz, - cy * sz, sy),
     (cx * sz + cz * sx * sy, cx * cz - sx * sy * sz, - cy * sx),
     (sx * sz - cx * cz * sy, cz * sx + cx * sy * sz, cx * cy)).

(** [rotatedNodes[node, 2]] *)
Definition node_z (rotated : list vec3) (node : Z) : option R :=
  match index rotated node with
  | Some (_, _, z) => Some z
  | None => None
  end.

(** [[rotatedNodes[node, 2] for node in node_list]] *)
Fixpoint node_zs (rotated : list vec3) (node_list : list Z) : option (list R) :=
  match node_list with
  | [] => Some []
  | node :: rest =>
      match node_z rotated node with
      | None => None
      | Some z =>
          match node_zs rotated rest with
          | None => None
          | Some zs => Some (z :: zs)
          end
      end
  end.

(** The right-hand side of the assignment to [zpos]: the list is built
    first (IndexError on a bad index), then summed, then divided by
    the length (ZeroDivisionError when the list is empty: the sum of
    no element is the integer 0, and so is the length). *)
Definition surface_zpos (rotated : list vec3) (node_list : list Z) : exn + R :=
  match node_zs rotated node_list with
  | None => inl IndexError
  | Some zs =>
      match length node_list with
      | O => inl ZeroDivisionError
      | n => inr (py_sum zs / INR n)
      end
  end.

(** The loop of [updateSurfaceZPos] over the surface list: the
    surfaces before a raise have their new depth, the others are as
    they were. *)
Fixpoint update_loop (rotated : list vec3) (ss : list Surface.t)
  : list Surface.t * option exn :=
  match ss with
  | [] => ([], None)
  | surface :: rest =>
      match surface_zpos rotated (Surface.nodes surface) with
      | inl e => (surface :: rest, Some e)
      | inr z =>
          let '(rest', r) := update_loop rotated rest in
          (Surface.setZPos surface z :: rest', r)
      end
  end.

Definition updateSurfaceZPos : proc t :=
  fun self =>
    let '(ss, r) := update_loop (rotatedNodes self) (surfaces self) in
    match r with
    | None => Done (set_surfaces self ss)
    | Some e => Raised e (set_surfaces self ss)
    end.

Definition sortSurfacesByZPos (self : t) : t :=
  set_surfaces self (py_sort_reverse Surface.zpos (surfaces self)).

Definition rotate (self : t) : t :=
  let matrix := vstack (rotationMatrix self) (slice03 (position self)) in
  set_rotatedNodes self (dot (nodes self) matrix).

(** One row of the broadcast expression of [transform]:
    [(row[0:2] * zScale) / row[2:3] + midScreen]. *)
Definition transform_row (zScale : R) (midScreen : vec2) (row : vec3) : vec2 :=
  let '(x, y, z) := row in
  let '(mx, my) := midScreen in
  ((x * zScale) / z + mx, (y * zScale) / z + my).

Definition transform (zScale : R) (midScreen : vec2) (self : t) : t :=
  set_transNodes self (map (transform_row zScale midScreen) (rotatedNodes self)).

End VectorObject.

(** ** Rounding

    One component of [increaseAngles] as numpy computes it, on binary64
    numbers: the addition of the velocity and the two tests.  It is
    used to see where the rounded computation and the exact one part. *)

Module Binary64.

Definition wrap_component (a v : float) : float :=
  let a0 := PrimFloat.add a v in
  let a1 := if PrimFloat.leb 360 a0 then PrimFloat.sub a0 360 else a0 in
  if PrimFloat.ltb a1 0 then PrimFloat.add a1 360 else a1.

End Binary64.

(** ** pygame, as far as the program uses it *)

Module Pygame.

Definition K_ESCAPE : Z := 27%Z.
Definition K_SPACE : Z := 32%Z.

(** What [pygame.event.get()] yields: the program tells QUIT and
    KEYDOWN (with its key) from every other event type. *)
Inductive event : Type :=
| QUIT
| KEYDOWN (key : Z)
| OTHER.

(** The calls the program makes on the display, the drawing module
    and the clock, in the order made. *)
Inductive call : Type :=
| screen_lock
| screen_fill (color : VectorObjectSurface.color_t)
| draw_aalines (color : VectorObjectSurface.color_t) (closed : bool)
    (points : list vec2)
| draw_polygon (color : VectorObjectSurface.color_t) (points : list vec2)
    (width : Z)
| screen_unlock
| display_flip
| clock_tick (fps : Z)
| time_wait (ms : Z)
| display_quit.

End Pygame.

(** ** class VectorViewer *)

Module VectorViewer.

Import Pygame.

(** A reference to a vector object. *)
Definition ref : Type := nat.

Record t : Type := mk {
  width : Z;
  height : Z;
  (** the calls made so far, oldest first *)
  calls : list call;
  (** how many times the screen is locked *)
  locks : nat;
  backgroundColor : VectorObjectSurface.color_t;
  (** the vector objects, by reference *)
  objects : ref -> VectorObject.t;
  VectorObjs : list ref;
  midScreen : vec2;
  zScale : R;
  lightPosition : vec3;
  target_fps : Z;
  running : bool;
  paused : bool
}.

Definition init (width height : Z) (objects : ref -> VectorObject.t) : t :=
  {| width := width; height := height;
     calls := []; locks := 0;
     backgroundColor := (0, 0, 0)%Z;
     objects := objects;
     VectorObjs := [];
     midScreen := (IZR width / 2, IZR height / 2);
     zScale := IZR width * (7 / 10);
     lightPosition := (400, 800, -500);
     target_fps := 60;
     running := true;
     paused := false |}.

Definition set_running (self : t) (b : bool) : t :=
  {| width := width self; height := height self;
     calls := calls self; locks := locks self;
     backgroundColor := backgroundColor self;
     objects := objects self; VectorObjs := VectorObjs self;
     midScreen := midScreen self; zScale := zScale self;
     lightPosition := lightPosition self; target_fps := target_fps self;
     running := b; paused := paused self |}.

Definition set_paused (self : t) (b : bool) : t :=
  {| width := width self; height := height self;
     calls := calls self; locks := locks self;
     backgroundColor := backgroundColor self;
     objects := objects self; VectorObjs := VectorObjs self;
     midScreen := midScreen self; zScale := zScale self;
     lightPosition := lightPosition self; target_fps := target_fps self;
     running := running self; paused := b |}.

Definition set_VectorObjs (self : t) (l : list ref) : t :=
  {| width := width self; height := height self;
     calls := calls self; locks := locks self;
     backgroundColor := backgroundColor self;
     objects := objects self; VectorObjs := l;
     midScreen := midScreen self; zScale := zScale self;
     lightPosition := lightPosition self; target_fps := target_fps self;
     running := running self; paused := paused self |}.

(** Writes the object behind reference [r]. *)
Definition store (self : t) (r : ref) (o : VectorObject.t) : t :=
  {| width := width self; height := height self;
     calls := calls self; locks := locks self;
     backgroundColor := backgroundColor self;
     objects := fun r' => if Nat.eqb r' r then o else objects self r';
     VectorObjs := VectorObjs self;
     midScreen := midScreen self; zScale := zScale self;
     lightPosition := lightPosition self; target_fps := target_fps self;
     running := running self; paused := paused self |}.

(** Records the calls [cs] and the lock count they leave. *)
Definition emit (cs : list call) (n : nat) (self : t) : t :=
  {| width := width self; height := height self;
     calls := calls self ++ cs; locks := n;
     backgroundColor := backgroundColor self;
     objects := objects self; VectorObjs := VectorObjs self;
     midScreen := midScreen self; zScale := zScale self;
     lightPosition := lightPosition self; target_fps := target_fps self;
     running := running self; paused := paused self |}.

Definition do_call (c : call) (self : t) : t :=
  emit [c]
    (match c with
     | screen_lock => S (locks self)
     | screen_unlock => Nat.pred (locks self)
     | _ => locks self
     end) self.

Definition addVectorObj (self : t) (VectorObj : ref) : t :=
  set_VectorObjs self (VectorObjs self ++ [VectorObj]).

Definition terminate (self : t) : t := set_running self false.

Definition pause (self : t) : t :=
  if paused self then set_paused self false else set_paused self true.

(** The module-level dictionary [key_to_function]. *)
Definition key_to_function : list (Z * (t -> t)) :=
  [ (K_ESCAPE, fun x => terminate x);
    (K_SPACE, fun x => pause x) ].

Fixpoint dict_get {V : Type} (d : list (Z * V)) (k : Z) : option V :=
  match d with
  | [] => None
  | (k', v) :: rest => if Z.eqb k k' then Some v else dict_get rest k
  end.

(** [VectorViewer.rotate]: the four steps on every referenced object,
    written back through its reference. *)
Definition rotate_obj (self : t) (r : ref) : t :=
  let o := objects self r in
  let o := VectorObject.increaseAngles o in
  let o := VectorObject.setRotationMatrix o in
  let o := VectorObject.rotate o in
  let o := VectorObject.transform (zScale self) (midScreen self) o in
  store self r o.

Definition rotate (self : t) : t :=
  fold_left rotate_obj (VectorObjs self) self.

(** [[transNodes[node][:2] for node in node_list]] *)
Fixpoint trans_points (transNodes : list vec2) (node_list : list Z)
  : option (list vec2) :=
  match node_list with
  | [] => Some []
  | node :: rest =>
      match index transNodes node with
      | None => None
      | Some p =>
          match trans_points transNodes rest with
          | None => None
          | Some ps => Some (p :: ps)
          end
      end
  end.

Definition draw_surface (r : ref) (surface : VectorObjectSurface.t) : proc t :=
  fun self =>
    match trans_points (VectorObject.transNodes (objects self r))
            (VectorObjectSurface.nodes surface) with
    | None => Raised IndexError self
    | Some node_list =>
        let c := VectorObjectSurface.color surface in
        Done (do_call (draw_polygon c node_list (VectorObjectSurface.edgeWidth surface))
                (do_call (draw_aalines c true node_list) self))
    end.

Definition update_obj (r : ref) : proc t :=
  fun self =>
    match VectorObject.updateSurfaceZPos (objects self r) with
    | Done o => Done (store self r o)
    | Raised e o => Raised e (store self r o)
    end.

Definition sort_obj (r : ref) : proc t :=
  pure_step (fun self => store self r
               (VectorObject.sortSurfacesByZPos (objects self r))).

Definition draw_obj (r : ref) : proc t :=
  fun self =>
    for_each (draw_surface r) (VectorObject.surfaces (objects self r)) self.

Definition display : proc t :=
  pure_step (do_call screen_lock) ;;
  (fun self => pure_step (do_call (screen_fill (backgroundColor self))) self) ;;
  (fun self =>
     for_each (fun r => update_obj r ;; sort_obj r ;; draw_obj r)
       (VectorObjs self) self) ;;
  pure_step (do_call screen_unlock).

(** [while self.screen.get_locked(): self.screen.unlock()] *)
Definition release_locks (self : t) : t :=
  emit (repeat screen_unlock (locks self)) 0 self.

Definition handle_event (self : t) (e : event) : t :=
  match e with
  | QUIT => set_running self false
  | KEYDOWN key =>
      match dict_get key_to_function key with
      | Some f => f self
      | None => self
      end
  | OTHER => self
  end.

Definition handle_events (events : list event) (self : t) : t :=
  fold_left handle_event events self.

(** The [else] branch of the loop body. *)
Definition frame : proc t :=
  pure_step rotate ;;
  display ;;
  pure_step release_locks ;;
  pure_step (do_call display_flip) ;;
  (fun self => pure_step (do_call (clock_tick (target_fps self))) self).

(** One iteration of the loop of [run], given what
    [pygame.event.get()] returns in it. *)
Definition iteration (events : list event) : proc t :=
  pure_step (handle_events events) ;;
  (fun self =>
     if paused self then pure_step (do_call (time_wait 100)) self
     else frame self).

(** [run], on the event batches of its first iterations: the loop
    ends when [running] is false at the top of an iteration; when the
    batches are used up the state reached is returned. *)
Fixpoint run (batches : list (list event)) : proc t :=
  fun self =>
    if running self then
      match batches with
      | [] => Done self
      | events :: rest => (iteration events ;; run rest) self
      end
    else Done (do_call display_quit self).

End VectorViewer.

(** ** The scene built by the main program *)

Module Main.

Definition node_array : list vec3 :=
  [ (100, 100, 100); (100, 100, -100); (100, -100, -100); (100, -100, 100);
    (-100, 100, 100); (-100, 100, -100); (-100, -100, -100); (-100, -100, 100) ].

Definition vobj : VectorObject.t :=
  let o := VectorObject.addNodes VectorObject.init node_array in
  let o := VectorObject.addSurfaces o 0 (255, 255, 255)%Z 0 [0; 3; 2; 1]%Z in
  let o := VectorObject.addSurfaces o 1 (255, 255, 255)%Z 0 [4; 5; 6; 7]%Z in
  let o := VectorObject.addSurfaces o 2 (150, 150, 150)%Z 0 [0; 1; 5; 4]%Z in
  let o := VectorObject.addSurfaces o 3 (150, 150, 150)%Z 0 [3; 7; 6; 2]%Z in
  let o := VectorObject.addSurfaces o 4 (80, 80, 80)%Z 0 [0; 4; 7; 3]%Z in
  let o := VectorObject.addSurfaces o 5 (80, 80, 80)%Z 0 [1; 2; 6; 5]%Z in
  let o := VectorObject.setRotateSpeed o (1, - (3 / 10), 55 / 100) in
  VectorObject.setPosition o (0, 0, 1500, 1).

Definition vv : VectorViewer.t :=
  VectorViewer.addVectorObj
    (VectorViewer.init 1280 800 (fun _ => vobj)) 0%nat.

End Main.

(** * The vocabulary of the properties *)

(** ** Advancing the orientation *)

Section AnglesVocabulary.

Import VectorObject.

(** An angle in degrees, wrapped. *)
Definition wrapped (a : R) : Prop := 0 <= a < 360.

(** A sum of angle and velocity that one pass of the two tests can
    bring back. *)
Definition one_wrap_away (a : R) : Prop := -360 <= a < 720.

Definition all3 (P : R -> Prop) (v : vec3) : Prop :=
  let '(x, y, z) := v in P x /\ P y /\ P z.

(** What the two tests of the loop body do to one component. *)
Definition wrap_once (a : R) : R :=
  let a1 := if Rge_dec a 360 then a - 360 else a in
  if Rlt_dec a1 0 then a1 + 360 else a1.

(** An object at rest at orientation (0,0,0) given the angular
    velocity [v]. *)
Definition spinning (v : vec3) : t := setRotateSpeed init v.

End AnglesVocabulary.


(** ** The rotation matrix and the combined transform *)

Section RotationVocabulary.

Import VectorObject.

(** A row of three times a 3x3 array. *)
Definition row_mul (v : vec3) (m : mat33) : vec3 :=
  let '(x, y, z) := v in
  let '(r0, r1, r2) := m in
  add3 (add3 (scale3 r0 x) (scale3 r1 y)) (scale3 r2 z).

(** The product of two 3x3 arrays: every row of the left one times the
    right one. *)
Definition mat_mul (a b : mat33) : mat33 :=
  let '(a0, a1, a2) := a in (row_mul a0 b, row_mul a1 b, row_mul a2 b).

Definition degrees_to_radians (d : R) : R := d * PI / 180.

(** The rotations about one axis, as the table of Euler angle matrices
    the program refers to writes them. *)
Definition rot_x (t : R) : mat33 :=
  ((1, 0, 0),
   (0, cos t, - sin t),
   (0, sin t, cos t)).

Definition rot_y (t : R) : mat33 :=
  ((cos t, 0, sin t),
   (0, 1, 0),
   (- sin t, 0, cos t)).

Definition rot_z (t : R) : mat33 :=
  ((cos t, - sin t, 0),
   (sin t, cos t, 0),
   (0, 0, 1)).

(** The X-then-Y-then-Z composition of the three rotations by angles in
    degrees: a row meets the X rotation first, then Y, then Z. *)
Definition euler_xyz (a : vec3) : mat33 :=
  let '(ax, ay, az) := a in
  mat_mul (mat_mul (rot_x (degrees_to_radians ax))
                   (rot_y (degrees_to_radians ay)))
          (rot_z (degrees_to_radians az)).

(** The per-vertex computation: rotate [v] by [m], then add [p]. *)
Definition rotate_then_translate (m : mat33) (p : vec3) (v : vec3) : vec3 :=
  add3 (row_mul v m) p.

Definition identity33 : mat33 := ((1, 0, 0), (0, 1, 0), (0, 0, 1)).

Definition transpose (m : mat33) : mat33 :=
  let '((a, b, c), (d, e, f), (g, h, i)) := m in
  ((a, d, g), (b, e, h), (c, f, i)).




(** The world-space vertices as a function of the three inputs alone. *)
Definition world_vertices (ns : list vec4) (a : vec3) (p : vec4) : list vec3 :=
  dot ns (vstack (euler_xyz a) (slice03 p)).


End RotationVocabulary.


(** ** Projection to the screen *)

Section ProjectionVocabulary.

Import VectorObject.


End ProjectionVocabulary.


(** ** Surface depth *)

Section DepthVocabulary.

Import VectorObject.

(** The arithmetic mean of a list of reals. *)
Definition mean (l : list R) : R := fold_right Rplus 0 l / INR (length l).

(** The world-space Z coordinate of vertex [i]. *)
Definition world_z (rotated : list vec3) (i : Z) : R :=
  let '(_, _, z) := nth (Z.to_nat i) rotated zeros3 in z.

(** The index [i] names a vertex of an object with [n] vertices. *)
Definition vertex_index (n : nat) (i : Z) : Prop := (0 <= i < Z.of_nat n)%Z.

(** A surface the depth pass accepts: at least one vertex index, and
    every index names a vertex. *)
Definition well_formed_surface (n : nat) (s : Surface.t) : Prop :=
  Surface.nodes s <> [] /\ Forall (vertex_index n) (Surface.nodes s).

(** Two surfaces that differ at most in their depth. *)
Definition same_but_depth (s s' : Surface.t) : Prop :=
  Surface.idnum s' = Surface.idnum s
  /\ Surface.nodes s' = Surface.nodes s
  /\ Surface.color s' = Surface.color s
  /\ Surface.edgeWidth s' = Surface.edgeWidth s.

(** The cube of the main program after one frame's rotation steps. *)
Definition vobj_rotated : t :=
  rotate (setRotationMatrix (increaseAngles Main.vobj)).

End DepthVocabulary.


(** ** The sort *)

Section SortVocabulary.

Context {A : Type}.
Variable key : A -> R.

(** Keeps the elements whose key is [d]. *)
Definition with_key (d : R) (l : list A) : list A :=
  filter (fun x => if Req_dec_T (key x) d then true else false) l.

Definition ascending (x y : A) : Prop := key x <= key y.
Definition descending (x y : A) : Prop := key x >= key y.

End SortVocabulary.


(** ** The depth pass of a frame *)

Section DepthPassVocabulary.

Import VectorObject.

(** The surfaces of the list whose depth is [d], in list order. *)
Definition at_depth (d : R) (ss : list Surface.t) : list Surface.t :=
  with_key Surface.zpos d ss.

(** Most distant first. *)
Definition farther_first (s s' : Surface.t) : Prop :=
  Surface.zpos s >= Surface.zpos s'.

(** [updateSurfaceZPos] followed by [sortSurfacesByZPos], as [display]
    runs them on every object. *)
Definition depth_pass : proc t :=
  updateSurfaceZPos ;; pure_step sortSurfacesByZPos.

End DepthPassVocabulary.


(** ** The main loop: pausing and resuming *)

Section LoopVocabulary.

Import Pygame VectorViewer.

(** An event that changes neither [running] nor [paused]. *)
Definition inert (e : event) : bool :=
  match e with
  | QUIT => false
  | KEYDOWN key =>
      match dict_get key_to_function key with
      | Some _ => false
      | None => true
      end
  | OTHER => true
  end.

(** The four per-frame steps of [VectorViewer.rotate] on one object. *)
Definition advance (zScale : R) (midScreen : vec2) (o : VectorObject.t)
  : VectorObject.t :=
  VectorObject.transform zScale midScreen
    (VectorObject.rotate
       (VectorObject.setRotationMatrix (VectorObject.increaseAngles o))).

(** How often the reference [r] occurs in [l]. *)
Definition occurrences (l : list ref) (r : ref) : nat :=
  count_occ Nat.eq_dec l r.

(** [n] paused iterations' worth of waiting. *)
Definition waits (n : nat) (self : t) : t :=
  Nat.iter n (do_call (time_wait 100)) self.

(** What a step may change of the viewer while leaving the loop flags,
    the scene and every object's orientation and velocity alone. *)
Record keeps_orientation (s s' : t) : Prop := {
  keeps_running : running s' = running s;
  keeps_paused : paused s' = paused s;
  keeps_VectorObjs : VectorObjs s' = VectorObjs s;
  keeps_scale : zScale s' = zScale s /\ midScreen s' = midScreen s;
  keeps_angles : forall r,
    VectorObject.angles (objects s' r) = VectorObject.angles (objects s r)
    /\ VectorObject.rotateSpeed (objects s' r)
       = VectorObject.rotateSpeed (objects s r)
}.

(** A procedure all of whose runs, returning or raising, stay within
    [keeps_orientation]. *)
Definition keeping (p : proc t) : Prop :=
  forall s, keeps_orientation s (state_of (p s)).

(** Everything of a frame after [VectorViewer.rotate]. *)
Definition after_rotate : proc t :=
  display ;;
  pure_step release_locks ;;
  pure_step (do_call display_flip) ;;
  (fun self => pure_step (do_call (clock_tick (target_fps self))) self).

End LoopVocabulary.


(** ** Rigid motion *)

Section RigidVocabulary.

(** The square of the distance between two points. *)
Definition sq_dist (u v : vec3) : R :=
  let '(a, b, c) := u in
  let '(x, y, z) := v in
  (a - x) * (a - x) + (b - y) * (b - y) + (c - z) * (c - z).

(** A matrix whose rows are of length 1 and at right angles to one
    another. *)
Definition row_orthogonal (m : mat33) : Prop :=
  mat_mul m (transpose m) = identity33.

End RigidVocabulary.


(** ** Perspective and depth order *)

Section PerspectiveVocabulary.



(** The first surface of the list has no vertex index. *)
Definition first_surface_empty (ss : list VectorObjectSurface.t) : Prop :=
  exists s rest, ss = s :: rest /\ VectorObjectSurface.nodes s = [].

(** Two vertices and one surface through both. *)
Definition two_vertices : VectorObject.t :=
  VectorObject.addSurfaces
    (VectorObject.addNodes VectorObject.init [(0, 0, 1); (0, 0, 3)])
    7 (10, 20, 30)%Z 1 [0; 1]%Z.

(** The depth every surface holds is the one the loop would write. *)
Definition depths_current (rotated : list vec3)
    (ss : list VectorObjectSurface.t) : Prop :=
  Forall (fun s =>
            VectorObject.surface_zpos rotated (VectorObjectSurface.nodes s)
            = inr (VectorObjectSurface.zpos s))
    ss.

(** An index numpy accepts on an axis of length [n]. *)
Definition accepted_index (n : nat) (i : Z) : Prop :=
  (- Z.of_nat n <= i < Z.of_nat n)%Z.

(** An index numpy rejects on an axis of length [n]. *)
Definition rejected_index (n : nat) (i : Z) : Prop :=
  (i < - Z.of_nat n \/ Z.of_nat n <= i)%Z.

(** A surface [updateSurfaceZPos] gets past: at least one index, all
    accepted. *)
Definition accepted_surface (n : nat) (s : VectorObjectSurface.t) : Prop :=
  VectorObjectSurface.nodes s <> []
  /\ Forall (accepted_index n) (VectorObjectSurface.nodes s).

(** The vertex an accepted index stands for: a negative index counts
    from the end. *)
Definition vertex_of (n : nat) (i : Z) : Z := (i mod Z.of_nat n)%Z.

(** The depth written for a surface of accepted indices. *)
Definition mean_depth (rotated : list vec3) (s : VectorObjectSurface.t) : R :=
  mean (map (fun i => world_z rotated (vertex_of (length rotated) i))
          (VectorObjectSurface.nodes s)).

(** Two vertices and one surface that names them from the end. *)
Definition two_vertices_from_end : VectorObject.t :=
  VectorObject.addSurfaces
    (VectorObject.addNodes VectorObject.init [(0, 0, 1); (0, 0, 3)])
    7 (10, 20, 30)%Z 1 [-1; -2]%Z.

(** Two vertices, a surface through both and then one with no index. *)
Definition with_empty_surface : VectorObject.t :=
  VectorObject.addSurfaces two_vertices 8 (1, 2, 3)%Z 0 [].

(** Two vertices, a surface through both and then one naming a third. *)
Definition with_bad_index : VectorObject.t :=
  VectorObject.addSurfaces two_vertices 8 (1, 2, 3)%Z 0 [0; 2]%Z.

End PerspectiveVocabulary.


(** ** Drawing a frame *)

Section DrawingVocabulary.

Import Pygame VectorViewer.









(** A viewer whose one object has a single surface, with no index. *)
Definition viewer_with_empty_surface : t :=
  addVectorObj
    (init 1280 800
       (fun _ =>
          VectorObject.addSurfaces
            (VectorObject.addNodes VectorObject.init [(0, 0, 1); (0, 0, 3)])
            9 (1, 2, 3)%Z 0 []))
    0%nat.

(** The body of the loop of [display] for one reference. *)
Definition display_obj (r : ref) : proc t :=
  update_obj r ;; sort_obj r ;; draw_obj r.

End DrawingVocabulary.


(** ** Orientation over several frames *)

Section TurnsVocabulary.

(** Two angles in degrees with the same sine and cosine. *)
Definition same_turn (a b : R) : Prop :=
  sin (degrees_to_radians a) = sin (degrees_to_radians b)
  /\ cos (degrees_to_radians a) = cos (degrees_to_radians b).

Definition same_turn3 (u v : vec3) : Prop :=
  let '(a, b, c) := u in
  let '(x, y, z) := v in
  same_turn a x /\ same_turn b y /\ same_turn c z.





End TurnsVocabulary.

(** * Properties *)

(** ** Advancing the orientation *)

Section IncreaseAngles.

Import VectorObject.

Lemma wrap_at_0 (x y z : R) : wrap_at (x, y, z) 0 = (wrap_once x, y, z).
Proof.
  unfold wrap_at, wrap_once. cbn [get3 set3].
  destruct (Rge_dec x 360); cbn [get3 set3];
    destruct (Rlt_dec _ 0); reflexivity.
Qed.

Lemma wrap_at_1 (x y z : R) : wrap_at (x, y, z) 1 = (x, wrap_once y, z).
Proof.
  unfold wrap_at, wrap_once. cbn [get3 set3].
  destruct (Rge_dec y 360); cbn [get3 set3];
    destruct (Rlt_dec _ 0); reflexivity.
Qed.

Lemma wrap_at_2 (x y z : R) : wrap_at (x, y, z) 2 = (x, y, wrap_once z).
Proof.
  unfold wrap_at, wrap_once. cbn [get3 set3].
  destruct (Rge_dec z 360); cbn [get3 set3];
    destruct (Rlt_dec _ 0); reflexivity.
Qed.

Lemma wrap_loop_componentwise (x y z : R) :
  fold_left wrap_at (seq 0 3) (x, y, z)
  = (wrap_once x, wrap_once y, wrap_once z).
Proof.
  cbn [seq fold_left].
  now rewrite wrap_at_0, wrap_at_1, wrap_at_2.
Qed.

Lemma increaseAngles_angles (o : t) :
  angles (increaseAngles o)
  = let '(x, y, z) := add3 (angles o) (rotateSpeed o) in
    (wrap_once x, wrap_once y, wrap_once z).
Proof.
  unfold increaseAngles. cbn [angles set_angles].
  destruct (add3 (angles o) (rotateSpeed o)) as [[x y] z].
  apply wrap_loop_componentwise.
Qed.

Lemma wrap_once_wrapped (a : R) : one_wrap_away a -> wrapped (wrap_once a).
Proof.
  unfold one_wrap_away, wrapped, wrap_once. intros H.
  destruct (Rge_dec a 360); destruct (Rlt_dec _ 0); lra.
Qed.

Lemma wrap_once_value (a b : R) :
  (a >= 360 -> a - 360 >= 0 -> b = a - 360) ->
  (a >= 360 -> a - 360 < 0 -> b = a - 360 + 360) ->
  (a < 360 -> a >= 0 -> b = a) ->
  (a < 360 -> a < 0 -> b = a + 360) ->
  wrap_once a = b.
Proof.
  unfold wrap_once. intros H1 H2 H3 H4.
  destruct (Rge_dec a 360); destruct (Rlt_dec _ 0); symmetry;
    first [ apply H1; lra | apply H2; lra | apply H3; lra | apply H4; lra ].
Qed.

(** C1, as stated, fails: from orientation (0,0,0) the angular velocity
    (800,0,0) leaves the first angle at 440 after one call of
    [increaseAngles], outside [0,360). *)
Lemma increaseAngles_overshoots :
  angles (increaseAngles (spinning (800, 0, 0))) = (440, 0, 0)
  /\ ~ all3 wrapped (angles (increaseAngles (spinning (800, 0, 0)))).
Proof.
  assert (E : angles (increaseAngles (spinning (800, 0, 0))) = (440, 0, 0)).
  { rewrite increaseAngles_angles. cbn.
    repeat f_equal; apply wrap_once_value; intros; lra. }
  split; [exact E|].
  rewrite E. cbn. unfold wrapped. lra.
Qed.

(** C1, amended: when every sum of an orientation angle and its
    velocity component lies in [-360,720), each of the three angles
    lies in [0,360) after one call of [increaseAngles]. *)
Theorem increaseAngles_wraps_one_turn (o : t) :
  all3 one_wrap_away (add3 (angles o) (rotateSpeed o)) ->
  all3 wrapped (angles (increaseAngles o)).
Proof.
  rewrite increaseAngles_angles.
  destruct (add3 (angles o) (rotateSpeed o)) as [[x y] z].
  cbn [all3]. intros (Hx & Hy & Hz).
  repeat split; apply wrap_once_wrapped; assumption.
Qed.

(** The amended C1 on the cube of the main program, at rest at
    (0,0,0) with velocity (1, -0.3, 0.55). *)
Lemma increaseAngles_wraps_one_turn_witness :
  all3 one_wrap_away
    (add3 (angles Main.vobj) (rotateSpeed Main.vobj))
  /\ all3 wrapped (angles (increaseAngles Main.vobj)).
Proof.
  assert (H : all3 one_wrap_away
                (add3 (angles Main.vobj) (rotateSpeed Main.vobj))).
  { cbn. unfold one_wrap_away. lra. }
  split; [exact H|].
  apply (increaseAngles_wraps_one_turn Main.vobj). exact H.
Defined.

(** A starting angle in [0,360) and a velocity component of at most a
    full turn either way give a sum that one wrap brings back. *)
Lemma bounded_velocity_one_wrap_away (a v : R) :
  wrapped a -> -360 <= v <= 360 -> one_wrap_away (a + v).
Proof. unfold wrapped, one_wrap_away. lra. Qed.

(** Outside [-360,720) the single wrap is not enough. *)
Lemma wrap_once_wrapped_only_if (a : R) :
  wrapped (wrap_once a) -> one_wrap_away a.
Proof.
  unfold one_wrap_away, wrapped, wrap_once.
  destruct (Rge_dec a 360); destruct (Rlt_dec _ 0); lra.
Qed.

(** C8: with angular velocity (400,0,0), one call of [increaseAngles]
    from orientation (0,0,0) leaves the orientation at (40,0,0), which
    is not (400,0,0). *)
Theorem increaseAngles_400_gives_40 (o : t) :
  angles o = (0, 0, 0) ->
  rotateSpeed o = (400, 0, 0) ->
  angles (increaseAngles o) = (40, 0, 0)
  /\ angles (increaseAngles o) <> (400, 0, 0).
Proof.
  intros Ha Hv.
  assert (E : angles (increaseAngles o) = (40, 0, 0)).
  { rewrite increaseAngles_angles, Ha, Hv. cbn.
    repeat f_equal; apply wrap_once_value; intros; lra. }
  split; [exact E|].
  rewrite E. intros H. injection H as H. lra.
Qed.

Lemma increaseAngles_400_gives_40_witness :
  angles (increaseAngles (spinning (400, 0, 0))) = (40, 0, 0)
  /\ angles (increaseAngles (spinning (400, 0, 0))) <> (400, 0, 0).
Proof.
  apply (increaseAngles_400_gives_40 (spinning (400, 0, 0))); reflexivity.
Defined.

(** The same three computations on binary64 numbers: 400 and 800
    behave as in the exact model, and a negative sum closer to 0 than
    half the spacing of the numbers near 360 is rounded up to 360. *)
Example binary64_400 : Binary64.wrap_component 0 400 = 40%float.
Proof. reflexivity. Qed.

Example binary64_800 : Binary64.wrap_component 0 800 = 440%float.
Proof. reflexivity. Qed.

Example binary64_rounds_to_360 :
  Binary64.wrap_component 0 (-0x1p-60) = 360%float.
Proof. reflexivity. Qed.

End IncreaseAngles.


(** ** The rotation matrix and the combined transform *)

Section Rotation.

Import VectorObject.

Lemma angleScale_radians (d : R) : d * angleScale = degrees_to_radians d.
Proof. unfold angleScale, degrees_to_radians. field. Qed.

Lemma vec3_eq {A B C : Type} (a x : A) (b y : B) (c z : C) :
  a = x -> b = y -> c = z -> (a, b, c) = (x, y, z).
Proof. intros; subst; reflexivity. Qed.

Lemma row_mul_assoc (v : vec3) (a b : mat33) :
  row_mul v (mat_mul a b) = row_mul (row_mul v a) b.
Proof.
  destruct v as [[x y] z].
  destruct a as [[[[a00 a01] a02] [[a10 a11] a12]] [[a20 a21] a22]].
  destruct b as [[[[b00 b01] b02] [[b10 b11] b12]] [[b20 b21] b22]].
  cbn [mat_mul row_mul add3 scale3].
  apply vec3_eq; ring.
Qed.

Lemma setRotationMatrix_matrix (o : t) :
  rotationMatrix (setRotationMatrix o) = euler_xyz (angles o).
Proof.
  unfold setRotationMatrix, euler_xyz.
  destruct (angles o) as [[ax ay] az].
  cbn [scale3 sin3 cos3 set_rotationMatrix rotationMatrix].
  rewrite !angleScale_radians.
  unfold rot_x, rot_y, rot_z.
  cbn [mat_mul row_mul add3 scale3].
  apply vec3_eq; apply vec3_eq; ring.
Qed.

Lemma mat_mul_assoc (a b c : mat33) :
  mat_mul (mat_mul a b) c = mat_mul a (mat_mul b c).
Proof.
  destruct a as [[a0 a1] a2]. cbn [mat_mul].
  now rewrite !row_mul_assoc.
Qed.

Lemma mat_mul_identity_r (a : mat33) : mat_mul a identity33 = a.
Proof.
  destruct a as [[[[a00 a01] a02] [[a10 a11] a12]] [[a20 a21] a22]].
  unfold identity33. cbn [mat_mul row_mul add3 scale3].
  apply vec3_eq; apply vec3_eq; ring.
Qed.

Lemma transpose_mat_mul (a b : mat33) :
  transpose (mat_mul a b) = mat_mul (transpose b) (transpose a).
Proof.
  destruct a as [[[[a00 a01] a02] [[a10 a11] a12]] [[a20 a21] a22]].
  destruct b as [[[[b00 b01] b02] [[b10 b11] b12]] [[b20 b21] b22]].
  cbn [transpose mat_mul row_mul add3 scale3].
  apply vec3_eq; apply vec3_eq; ring.
Qed.



Lemma sin_cos_square (t : R) : cos t * cos t + sin t * sin t = 1.
Proof.
  pose proof (sin2_cos2 t) as H. unfold Rsqr in H. lra.
Qed.





Lemma row_dot43_fused (m : mat33) (p : vec4) (v : vec3) :
  row_dot43 (let '(x, y, z) := v in (x, y, z, 1)) (vstack m (slice03 p))
  = rotate_then_translate m (slice03 p) v.
Proof.
  destruct v as [[x y] z].
  destruct m as [[[[m00 m01] m02] [[m10 m11] m12]] [[m20 m21] m22]].
  destruct p as [[[px py] pz] pw].
  cbn [row_dot43 vstack slice03 rotate_then_translate row_mul add3 scale3].
  apply vec3_eq; ring.
Qed.

(** C3: for a vertex set stored by [addNodes] (with the appended 1), a
    rotation matrix [m] and a position [p], the one product computed by
    [rotate], of the Nx4 nodes and the 4x3 array that stacks [p] under
    [m], gives for every vertex the point of the per-vertex computation:
    the vertex rotated by [m], then moved by [p]. *)
Theorem rotate_fuses_rotation_and_translation
    (o : t) (node_array : list vec3) (m : mat33) (p : vec4) :
  rotatedNodes
    (rotate (setPosition (set_rotationMatrix (addNodes o node_array) m) p))
  = map (rotate_then_translate m (slice03 p)) node_array.
Proof.
  unfold rotate, setPosition, addNodes.
  cbn [rotatedNodes set_rotatedNodes set_position set_rotationMatrix
       set_nodes nodes rotationMatrix position].
  unfold dot, hstack_ones. rewrite map_map.
  apply map_ext. intros v. apply row_dot43_fused.
Qed.

Lemma rotate_after_setRotationMatrix (o : t) :
  rotatedNodes (rotate (setRotationMatrix o))
  = world_vertices (nodes o) (angles o) (position o).
Proof.
  unfold rotate, world_vertices.
  cbn [rotatedNodes set_rotatedNodes].
  rewrite setRotationMatrix_matrix.
  unfold setRotationMatrix.
  destruct (sin3 _) as [[sx sy] sz]. destruct (cos3 _) as [[cx cy] cz].
  reflexivity.
Qed.




End Rotation.


(** ** Projection to the screen *)

Section Projection.

Import VectorObject.



Lemma euler_xyz_zero : euler_xyz (0, 0, 0) = ((1, 0, 0), (0, 1, 0), (0, 0, 1)).
Proof.
  unfold euler_xyz, degrees_to_radians, rot_x, rot_y, rot_z.
  replace (0 * PI / 180) with 0 by (unfold Rdiv; ring).
  rewrite sin_0, cos_0.
  cbn [mat_mul row_mul add3 scale3].
  apply vec3_eq; apply vec3_eq; ring.
Qed.




End Projection.


(** ** Surface depth *)

Section SurfaceDepth.

Import VectorObject.

Lemma py_sum_fold_right (l : list R) : py_sum l = fold_right Rplus 0 l.
Proof.
  unfold py_sum. apply fold_symmetric; intros; ring.
Qed.

Lemma node_z_valid (rotated : list vec3) (i : Z) :
  vertex_index (length rotated) i ->
  node_z rotated i = Some (world_z rotated i).
Proof.
  unfold vertex_index, node_z, world_z, index. intros [Hlo Hhi].
  destruct (Z.leb_spec 0 i) as [_|]; [|lia].
  assert (Hn : (Z.to_nat i < length rotated)%nat) by lia.
  rewrite (nth_error_nth' rotated zeros3 Hn).
  destruct (nth (Z.to_nat i) rotated zeros3) as [[x y] z]. reflexivity.
Qed.

Lemma node_zs_valid (rotated : list vec3) (node_list : list Z) :
  Forall (vertex_index (length rotated)) node_list ->
  node_zs rotated node_list = Some (map (world_z rotated) node_list).
Proof.
  induction 1 as [|i rest Hi _ IH]; [reflexivity|].
  cbn [node_zs map]. now rewrite (node_z_valid _ _ Hi), IH.
Qed.


Lemma surface_zpos_mean (rotated : list vec3) (s : Surface.t) :
  well_formed_surface (length rotated) s ->
  surface_zpos rotated (Surface.nodes s)
  = inr (mean (map (world_z rotated) (Surface.nodes s))).
Proof.
  intros [Hne Hall]. unfold surface_zpos, mean.
  rewrite (node_zs_valid _ _ Hall), py_sum_fold_right, length_map.
  destruct (Surface.nodes s); [contradiction|reflexivity].
Qed.

Lemma update_loop_mean (rotated : list vec3) (ss : list Surface.t) :
  Forall (well_formed_surface (length rotated)) ss ->
  update_loop rotated ss
  = (map (fun s =>
            Surface.setZPos s (mean (map (world_z rotated) (Surface.nodes s))))
       ss,
     None).
Proof.
  induction 1 as [|s rest Hs _ IH]; [reflexivity|].
  cbn [update_loop map]. now rewrite (surface_zpos_mean _ _ Hs), IH.
Qed.

(** The loop writes the mean into surface [k] as soon as it gets past
    the surfaces before it. *)
Lemma update_loop_reaches (rotated : list vec3) (ss : list Surface.t)
    (k : nat) (s : Surface.t) :
  nth_error ss k = Some s ->
  well_formed_surface (length rotated) s ->
  Forall (fun s0 => exists z, surface_zpos rotated (Surface.nodes s0) = inr z)
    (firstn k ss) ->
  nth_error (fst (update_loop rotated ss)) k
  = Some (Surface.setZPos s (mean (map (world_z rotated) (Surface.nodes s)))).
Proof.
  revert k. induction ss as [|s0 rest IH]; intros k Hk Hs Hbefore.
  - destruct k; discriminate.
  - cbn [update_loop]. destruct k as [|k].
    + injection Hk as ->. rewrite (surface_zpos_mean _ _ Hs).
      destruct (update_loop rotated rest). reflexivity.
    + cbn [firstn] in Hbefore. inversion Hbefore as [|? ? [z Hz] Hrest]; subst.
      rewrite Hz. specialize (IH k Hk Hs Hrest).
      destruct (update_loop rotated rest). exact IH.
Qed.

Lemma Forall_prefix {X : Type} (P : X -> Prop) (k : nat) (l : list X) :
  Forall P l -> Forall P (firstn k l).
Proof.
  intros H. revert k. induction H as [|x l Hx _ IH]; intros [|k];
    cbn [firstn]; constructor; auto.
Qed.

(** A loop that raises nothing got past every surface. *)
Lemma update_loop_done (rotated : list vec3) (ss : list Surface.t) :
  snd (update_loop rotated ss) = None ->
  Forall (fun s0 => exists z, surface_zpos rotated (Surface.nodes s0) = inr z) ss.
Proof.
  induction ss as [|s0 rest IH]; intros H; [constructor|].
  cbn [update_loop] in H.
  destruct (surface_zpos rotated (Surface.nodes s0)) as [e|z] eqn:E;
    [discriminate|].
  destruct (update_loop rotated rest) as [rest' r]. cbn [snd] in *.
  constructor; [now exists z|now apply IH].
Qed.

Lemma well_formed_accepted (rotated : list vec3) (ss : list Surface.t) :
  Forall (well_formed_surface (length rotated)) ss ->
  Forall (fun s0 => exists z, surface_zpos rotated (Surface.nodes s0) = inr z) ss.
Proof.
  apply Forall_impl. intros s0 H. eexists. apply (surface_zpos_mean _ _ H).
Qed.

(** C5: for a surface of the object with a non-empty list of vertex
    indices, all valid for the object, [updateSurfaceZPos] sets the depth
    of the surface to the arithmetic mean of the world-space Z
    coordinates ([rotatedNodes], before projection) of the vertices it
    lists, and changes nothing else of it: whenever the call returns;
    it does return when every surface of the object is so formed; and
    the depth is already set if the call raises on a later surface. *)
Theorem updateSurfaceZPos_sets_mean_depth (o : t) (k : nat) (s : Surface.t) :
  nth_error (surfaces o) k = Some s ->
  well_formed_surface (length (rotatedNodes o)) s ->
  let depth_set (o' : t) :=
    exists s' : Surface.t,
      nth_error (surfaces o') k = Some s'
      /\ Surface.zpos s'
         = mean (map (world_z (rotatedNodes o)) (Surface.nodes s))
      /\ same_but_depth s s' in
  (forall o' : t, updateSurfaceZPos o = Done o' -> depth_set o')
  /\ (Forall (well_formed_surface (length (rotatedNodes o))) (surfaces o) ->
      exists o' : t,
        updateSurfaceZPos o = Done o'
        /\ o' = set_surfaces o (surfaces o')
        /\ length (surfaces o') = length (surfaces o))
  /\ (Forall (well_formed_surface (length (rotatedNodes o)))
        (firstn k (surfaces o)) ->
      depth_set (state_of (updateSurfaceZPos o))).
Proof.
  intros Hk Hs depth_set.
  assert (Hreach :
    Forall (fun s0 => exists z,
              surface_zpos (rotatedNodes o) (Surface.nodes s0) = inr z)
      (firstn k (surfaces o)) ->
    depth_set (set_surfaces o
                 (fst (update_loop (rotatedNodes o) (surfaces o))))).
  { intros Hbefore. eexists. cbn [surfaces set_surfaces].
    split; [apply (update_loop_reaches _ _ _ _ Hk Hs Hbefore)|].
    split; [reflexivity|repeat split]. }
  split; [|split].
  - intros o' Hdone. unfold updateSurfaceZPos in Hdone.
    pose proof (update_loop_done (rotatedNodes o) (surfaces o)) as Hall.
    destruct (update_loop (rotatedNodes o) (surfaces o)) as [ss [e|]];
      [discriminate|].
    injection Hdone as <-. apply Hreach.
    apply Forall_prefix. now apply Hall.
  - intros Hall. unfold updateSurfaceZPos.
    rewrite (update_loop_mean _ _ Hall).
    eexists. split; [reflexivity|].
    cbn [surfaces set_surfaces]. split; [reflexivity|apply length_map].
  - intros Hbefore.
    replace (state_of (updateSurfaceZPos o))
      with (set_surfaces o (fst (update_loop (rotatedNodes o) (surfaces o)))).
    + apply Hreach. now apply well_formed_accepted.
    + unfold updateSurfaceZPos.
      destruct (update_loop (rotatedNodes o) (surfaces o)) as [ss [e|]];
        reflexivity.
Qed.

Lemma vobj_rotated_well_formed :
  Forall (well_formed_surface (length (rotatedNodes vobj_rotated)))
    (surfaces vobj_rotated).
Proof.
  assert (L : length (rotatedNodes vobj_rotated) = 8%nat).
  { unfold vobj_rotated. rewrite rotate_after_setRotationMatrix.
    unfold world_vertices, dot. now rewrite length_map. }
  rewrite L.
  assert (S : surfaces vobj_rotated = surfaces Main.vobj).
  { unfold vobj_rotated, rotate, setRotationMatrix.
    destruct (sin3 _) as [[sx sy] sz]. destruct (cos3 _) as [[cx cy] cz].
    reflexivity. }
  rewrite S. cbn.
  repeat (apply Forall_cons || apply Forall_nil);
    (split; [discriminate|]);
    repeat (apply Forall_cons || apply Forall_nil);
    unfold vertex_index; cbn; lia.
Qed.

Lemma vobj_rotated_third_surface :
  nth_error (surfaces vobj_rotated) 2
  = Some (Surface.mk 2 [0; 1; 5; 4]%Z (150, 150, 150)%Z 0 0).
Proof.
  unfold vobj_rotated, rotate, setRotationMatrix.
  destruct (sin3 _) as [[sx sy] sz]. destruct (cos3 _) as [[cx cy] cz].
  reflexivity.
Qed.

(** The third surface of the cube of the main program, after one
    frame's rotation steps. *)
Lemma updateSurfaceZPos_sets_mean_depth_witness :
  let s := Surface.mk 2 [0; 1; 5; 4]%Z (150, 150, 150)%Z 0 0 in
  let depth_set (o' : t) :=
    exists s' : Surface.t,
      nth_error (surfaces o') 2 = Some s'
      /\ Surface.zpos s'
         = mean (map (world_z (rotatedNodes vobj_rotated)) (Surface.nodes s))
      /\ same_but_depth s s' in
  (forall o' : t, updateSurfaceZPos vobj_rotated = Done o' -> depth_set o')
  /\ (Forall (well_formed_surface (length (rotatedNodes vobj_rotated)))
        (surfaces vobj_rotated) ->
      exists o' : t,
        updateSurfaceZPos vobj_rotated = Done o'
        /\ o' = set_surfaces vobj_rotated (surfaces o')
        /\ length (surfaces o') = length (surfaces vobj_rotated))
  /\ (Forall (well_formed_surface (length (rotatedNodes vobj_rotated)))
        (firstn 2 (surfaces vobj_rotated)) ->
      depth_set (state_of (updateSurfaceZPos vobj_rotated))).
Proof.
  apply (updateSurfaceZPos_sets_mean_depth vobj_rotated 2
           (Surface.mk 2 [0; 1; 5; 4]%Z (150, 150, 150)%Z 0 0)).
  - exact vobj_rotated_third_surface.
  - pose proof vobj_rotated_well_formed as H.
    rewrite Forall_forall in H. apply H.
    apply (nth_error_In _ 2). exact vobj_rotated_third_surface.
Defined.

End SurfaceDepth.


(** ** The sort *)

Section SortFacts.

Context {A : Type}.
Variable key : A -> R.

Lemma insert_by_key_perm (x : A) (l : list A) :
  Permutation (x :: l) (insert_by_key key x l).
Proof.
  induction l as [|y rest IH]; cbn [insert_by_key]; [reflexivity|].
  destruct (Rlt_dec (key y) (key x)); [|reflexivity].
  rewrite perm_swap. now apply perm_skip.
Qed.

Lemma sort_ascending_perm (l : list A) :
  Permutation l (sort_ascending key l).
Proof.
  induction l as [|x rest IH]; cbn [sort_ascending fold_right]; [reflexivity|].
  rewrite <- insert_by_key_perm. now apply perm_skip.
Qed.

Lemma insert_by_key_sorted (x : A) (l : list A) :
  StronglySorted (ascending key) l -> StronglySorted (ascending key) (insert_by_key key x l).
Proof.
  induction 1 as [|y rest Hs IH Hy]; cbn [insert_by_key].
  - repeat constructor.
  - destruct (Rlt_dec (key y) (key x)) as [Hlt|Hge].
    + constructor; [exact IH|].
      apply (Permutation_Forall (insert_by_key_perm x rest)).
      constructor; [unfold ascending; lra|exact Hy].
    + constructor; [constructor; assumption|].
      constructor; [unfold ascending; lra|].
      revert Hy. apply Forall_impl. unfold ascending. intros z Hz. lra.
Qed.

Lemma sort_ascending_sorted (l : list A) :
  StronglySorted (ascending key) (sort_ascending key l).
Proof.
  induction l as [|x rest IH]; cbn [sort_ascending fold_right].
  - constructor.
  - now apply insert_by_key_sorted.
Qed.

Lemma sorted_app_one (R' : A -> A -> Prop) (l : list A) (x : A) :
  StronglySorted R' l -> Forall (fun y => R' y x) l ->
  StronglySorted R' (l ++ [x]).
Proof.
  induction 1 as [|y rest Hs IH Hy]; intros Hx; cbn [app].
  - repeat constructor.
  - inversion Hx; subst. constructor; [now apply IH|].
    apply Forall_app. split; [exact Hy|]. now repeat constructor.
Qed.

Lemma rev_ascending_descending (l : list A) :
  StronglySorted (ascending key) l -> StronglySorted (descending key) (rev l).
Proof.
  induction 1 as [|y rest Hs IH Hy]; cbn [rev]; [constructor|].
  apply sorted_app_one; [exact IH|].
  apply Forall_rev. revert Hy. apply Forall_impl.
  unfold ascending, descending. intros z Hz. lra.
Qed.

Lemma with_key_insert (d : R) (x : A) (l : list A) :
  with_key key d (insert_by_key key x l) = with_key key d (x :: l).
Proof.
  induction l as [|y rest IH]; cbn [insert_by_key]; [reflexivity|].
  destruct (Rlt_dec (key y) (key x)) as [Hlt|Hge]; [|reflexivity].
  unfold with_key in *. cbn [filter] in *. rewrite IH.
  destruct (Req_dec_T (key x) d) as [Hx|Hx];
    destruct (Req_dec_T (key y) d) as [Hy|Hy]; try reflexivity.
  exfalso. lra.
Qed.

Lemma with_key_sort_ascending (d : R) (l : list A) :
  with_key key d (sort_ascending key l) = with_key key d l.
Proof.
  induction l as [|x rest IH]; cbn [sort_ascending fold_right]; [reflexivity|].
  rewrite with_key_insert. unfold with_key in *. cbn [filter].
  fold (sort_ascending key rest). now rewrite IH.
Qed.

Lemma with_key_rev (d : R) (l : list A) :
  with_key key d (rev l) = rev (with_key key d l).
Proof.
  unfold with_key. induction l as [|x rest IH]; cbn [rev filter]; [reflexivity|].
  rewrite filter_app, IH. cbn [filter].
  destruct (Req_dec_T (key x) d); [reflexivity|]. now rewrite app_nil_r.
Qed.

Lemma py_sort_reverse_descending (l : list A) :
  StronglySorted (descending key) (py_sort_reverse key l).
Proof.
  unfold py_sort_reverse. apply rev_ascending_descending, sort_ascending_sorted.
Qed.

Lemma py_sort_reverse_perm (l : list A) :
  Permutation l (py_sort_reverse key l).
Proof.
  unfold py_sort_reverse.
  rewrite <- Permutation_rev, <- sort_ascending_perm. apply Permutation_rev.
Qed.

Lemma py_sort_reverse_stable (d : R) (l : list A) :
  with_key key d (py_sort_reverse key l) = with_key key d l.
Proof.
  unfold py_sort_reverse.
  now rewrite with_key_rev, with_key_sort_ascending, with_key_rev, rev_involutive.
Qed.

End SortFacts.


(** ** The depth pass of a frame *)

Section DepthPass.

Import VectorObject.

(** Four surfaces at depths 1, 3, 1, 2: the one at 3 comes first, and
    the two at depth 1 keep their order. *)
Example sortSurfacesByZPos_example :
  let surface i z := Surface.setZPos (Surface.mk i [] (0, 0, 0)%Z 0%Z 0) z in
  map Surface.idnum
    (surfaces
       (sortSurfacesByZPos
          (set_surfaces init
             [surface 0%Z 1; surface 1%Z 3; surface 2%Z 1; surface 3%Z 2])))
  = [1; 3; 0; 2]%Z.
Proof.
  cbv [sortSurfacesByZPos set_surfaces surfaces py_sort_reverse sort_ascending
       rev app fold_right insert_by_key Surface.setZPos Surface.zpos].
  repeat (destruct (Rlt_dec _ _); try lra;
          cbv [rev app insert_by_key Surface.zpos]).
  reflexivity.
Qed.

(** C6: [sortSurfacesByZPos] leaves the surface list ordered by depth,
    descending (the most distant surface first), and the sort is
    stable: for every depth, the surfaces at that depth are in the
    order they had before the sort. *)
Theorem sortSurfacesByZPos_descending_stable (o : t) :
  StronglySorted farther_first (surfaces (sortSurfacesByZPos o))
  /\ Permutation (surfaces o) (surfaces (sortSurfacesByZPos o))
  /\ forall d : R,
       at_depth d (surfaces (sortSurfacesByZPos o)) = at_depth d (surfaces o).
Proof.
  unfold sortSurfacesByZPos. cbn [surfaces set_surfaces].
  split; [apply py_sort_reverse_descending|].
  split; [apply py_sort_reverse_perm|].
  intros d. apply py_sort_reverse_stable.
Qed.

Lemma update_loop_same_but_depth (rotated : list vec3) (ss : list Surface.t) :
  Forall2 same_but_depth ss (fst (update_loop rotated ss)).
Proof.
  induction ss as [|s rest IH]; cbn [update_loop]; [constructor|].
  destruct (surface_zpos rotated (Surface.nodes s)) as [e|z].
  - cbn [fst]. constructor; [repeat split|].
    clear. induction rest; constructor; [repeat split|assumption].
  - destruct (update_loop rotated rest) as [rest' r]. cbn [fst] in *.
    constructor; [repeat split|exact IH].
Qed.

Lemma updateSurfaceZPos_state (o : t) :
  state_of (updateSurfaceZPos o)
  = set_surfaces o (fst (update_loop (rotatedNodes o) (surfaces o))).
Proof.
  unfold updateSurfaceZPos.
  destruct (update_loop (rotatedNodes o) (surfaces o)) as [ss [e|]];
    reflexivity.
Qed.

Lemma depth_pass_state (o : t) :
  exists ss : list Surface.t,
    state_of (updateSurfaceZPos o) = set_surfaces o ss
    /\ Forall2 same_but_depth (surfaces o) ss
    /\ (state_of (depth_pass o) = set_surfaces o ss
        \/ state_of (depth_pass o)
           = set_surfaces o (py_sort_reverse Surface.zpos ss)).
Proof.
  exists (fst (update_loop (rotatedNodes o) (surfaces o))).
  split; [apply updateSurfaceZPos_state|].
  split; [apply update_loop_same_but_depth|].
  unfold depth_pass, and_then, updateSurfaceZPos.
  destruct (update_loop (rotatedNodes o) (surfaces o)) as [ss [e|]];
    cbn [fst state_of]; [left|right]; reflexivity.
Qed.

(** C10: whether it returns or raises, the depth pass of a frame
    ([updateSurfaceZPos], then [sortSurfacesByZPos]) leaves in the
    object a surface list that is a permutation of a list holding, place
    for place, the surfaces held before with at most the depth changed:
    no surface is added, removed or duplicated, only the depth of a
    surface is written, and no other field of the object is. *)
Theorem depth_pass_permutes_surfaces (o : t) :
  exists ss : list Surface.t,
    Forall2 same_but_depth (surfaces o) ss
    /\ Permutation ss (surfaces (state_of (depth_pass o)))
    /\ length (surfaces (state_of (depth_pass o))) = length (surfaces o)
    /\ state_of (depth_pass o)
       = set_surfaces o (surfaces (state_of (depth_pass o))).
Proof.
  destruct (depth_pass_state o) as (ss & _ & Hss & [E|E]);
    exists ss; rewrite E; cbn [surfaces set_surfaces];
    (split; [exact Hss|]).
  - split; [reflexivity|].
    split; [symmetry; apply (Forall2_length Hss)|reflexivity].
  - split; [apply py_sort_reverse_perm|].
    split; [|reflexivity].
    rewrite <- (Permutation_length (py_sort_reverse_perm Surface.zpos ss)).
    symmetry. apply (Forall2_length Hss).
Qed.

(** On surfaces the pass accepts, it returns. *)
Lemma depth_pass_returns (o : t) :
  Forall (well_formed_surface (length (rotatedNodes o))) (surfaces o) ->
  exists o' : t, depth_pass o = Done o'.
Proof.
  intros H. unfold depth_pass, and_then, updateSurfaceZPos.
  rewrite (update_loop_mean _ _ H). eexists. reflexivity.
Qed.

End DepthPass.


(** ** The main loop: pausing and resuming *)

Section PauseResume.

Import Pygame VectorViewer.

Lemma keeps_refl (s : t) : keeps_orientation s s.
Proof. constructor; auto. Qed.

Lemma keeps_trans (s1 s2 s3 : t) :
  keeps_orientation s1 s2 -> keeps_orientation s2 s3 -> keeps_orientation s1 s3.
Proof.
  intros [a1 b1 c1 [d1 e1] f1] [a2 b2 c2 [d2 e2] f2].
  constructor; try congruence; [split; congruence|].
  intros r. destruct (f1 r), (f2 r). split; congruence.
Qed.

Lemma keeping_pure (f : t -> t) :
  (forall s, keeps_orientation s (f s)) -> keeping (pure_step f).
Proof. intros H s. apply H. Qed.

Lemma keeping_and_then (p q : proc t) :
  keeping p -> keeping q -> keeping (p ;; q).
Proof.
  intros Hp Hq s. unfold and_then. specialize (Hp s).
  destruct (p s) as [s'|e s']; cbn [state_of] in *; [|exact Hp].
  apply (keeps_trans _ _ _ Hp). apply Hq.
Qed.

Lemma keeping_for_each {X : Type} (body : X -> proc t) (l : list X) :
  (forall x, keeping (body x)) -> keeping (for_each body l).
Proof.
  intros H. induction l as [|x rest IH]; cbn [for_each].
  - intros s. apply keeps_refl.
  - apply keeping_and_then; [apply H|exact IH].
Qed.

Lemma keeps_do_call (c : call) (s : t) : keeps_orientation s (do_call c s).
Proof. constructor; auto. Qed.

Lemma keeps_store_surfaces (s : t) (r : ref) (ss : list VectorObjectSurface.t) :
  keeps_orientation s (store s r (VectorObject.set_surfaces (objects s r) ss)).
Proof.
  constructor; auto. intros r'. cbn [store objects].
  destruct (Nat.eqb_spec r' r) as [->|]; auto.
Qed.

Lemma updateSurfaceZPos_surfaces_only (o : VectorObject.t) :
  exists ss,
    state_of (VectorObject.updateSurfaceZPos o) = VectorObject.set_surfaces o ss.
Proof.
  unfold VectorObject.updateSurfaceZPos.
  destruct (VectorObject.update_loop _ _) as [ss [e|]]; exists ss; reflexivity.
Qed.

Lemma keeping_update_obj (r : ref) : keeping (update_obj r).
Proof.
  intros s. unfold update_obj.
  destruct (updateSurfaceZPos_surfaces_only (objects s r)) as [ss E].
  destruct (VectorObject.updateSurfaceZPos (objects s r)) as [o|e o];
    cbn [state_of] in *; subst o; apply keeps_store_surfaces.
Qed.

Lemma keeping_sort_obj (r : ref) : keeping (sort_obj r).
Proof.
  apply keeping_pure. intros s. apply keeps_store_surfaces.
Qed.

Lemma keeping_draw_surface (r : ref) (surface : VectorObjectSurface.t) :
  keeping (draw_surface r surface).
Proof.
  intros s. unfold draw_surface.
  destruct (trans_points _ _); cbn [state_of]; [|apply keeps_refl].
  apply (keeps_trans _ (do_call (draw_aalines
           (VectorObjectSurface.color surface) true l) s));
    apply keeps_do_call.
Qed.

Lemma keeping_draw_obj (r : ref) : keeping (draw_obj r).
Proof.
  intros s. unfold draw_obj.
  apply keeping_for_each. intros x. apply keeping_draw_surface.
Qed.

Lemma keeping_display : keeping display.
Proof.
  unfold display.
  apply keeping_and_then; [apply keeping_pure, keeps_do_call|].
  apply keeping_and_then;
    [intros s; apply (keeping_pure _ (keeps_do_call _))|].
  apply keeping_and_then; [|apply keeping_pure, keeps_do_call].
  intros s. apply keeping_for_each. intros r.
  apply keeping_and_then; [apply keeping_update_obj|].
  apply keeping_and_then; [apply keeping_sort_obj|apply keeping_draw_obj].
Qed.

Lemma keeps_release_locks (s : t) : keeps_orientation s (release_locks s).
Proof. constructor; auto. Qed.

Lemma keeping_after_rotate : keeping after_rotate.
Proof.
  unfold after_rotate.
  apply keeping_and_then; [apply keeping_display|].
  apply keeping_and_then; [apply keeping_pure, keeps_release_locks|].
  apply keeping_and_then; [apply keeping_pure, keeps_do_call|].
  intros s. apply (keeping_pure _ (keeps_do_call _)).
Qed.

Lemma frame_unfold (s : t) : frame s = after_rotate (rotate s).
Proof. reflexivity. Qed.

Lemma rotate_fold (l : list ref) (s : t) (r : ref) :
  objects (fold_left rotate_obj l s) r
  = Nat.iter (occurrences l r) (advance (zScale s) (midScreen s)) (objects s r)
  /\ running (fold_left rotate_obj l s) = running s
  /\ paused (fold_left rotate_obj l s) = paused s
  /\ VectorObjs (fold_left rotate_obj l s) = VectorObjs s
  /\ zScale (fold_left rotate_obj l s) = zScale s
  /\ midScreen (fold_left rotate_obj l s) = midScreen s
  /\ calls (fold_left rotate_obj l s) = calls s.
Proof.
  revert s. induction l as [|x rest IH]; intros s; cbn [fold_left].
  - repeat split.
  - destruct (IH (rotate_obj s x)) as (Ho & Hr & Hp & Hv & Hz & Hm & Hc).
    rewrite Ho, Hr, Hp, Hv, Hz, Hm, Hc. clear.
    split; [|repeat split].
    unfold occurrences. cbn [count_occ rotate_obj store objects zScale midScreen].
    destruct (Nat.eq_dec x r) as [->|Hne].
    + rewrite Nat.eqb_refl. now rewrite Nat.iter_succ_r.
    + destruct (Nat.eqb_spec r x) as [->|_]; [contradiction|reflexivity].
Qed.

Lemma advance_orientation (zs : R) (mid : vec2) (o : VectorObject.t) :
  VectorObject.angles (advance zs mid o)
  = VectorObject.angles (VectorObject.increaseAngles o)
  /\ VectorObject.rotateSpeed (advance zs mid o) = VectorObject.rotateSpeed o.
Proof.
  unfold advance, VectorObject.transform, VectorObject.rotate,
    VectorObject.setRotationMatrix.
  destruct (sin3 _) as [[sx sy] sz]. destruct (cos3 _) as [[cx cy] cz].
  split; reflexivity.
Qed.

Lemma increaseAngles_orientation (o o' : VectorObject.t) :
  VectorObject.angles o = VectorObject.angles o' ->
  VectorObject.rotateSpeed o = VectorObject.rotateSpeed o' ->
  VectorObject.angles (VectorObject.increaseAngles o)
  = VectorObject.angles (VectorObject.increaseAngles o')
  /\ VectorObject.rotateSpeed (VectorObject.increaseAngles o)
     = VectorObject.rotateSpeed (VectorObject.increaseAngles o').
Proof.
  intros Ha Hv. unfold VectorObject.increaseAngles.
  cbn [VectorObject.angles VectorObject.rotateSpeed VectorObject.set_angles].
  now rewrite Ha, Hv.
Qed.

Lemma advance_iter_orientation (zs : R) (mid : vec2) (n : nat)
    (o : VectorObject.t) :
  VectorObject.angles (Nat.iter n (advance zs mid) o)
  = VectorObject.angles (Nat.iter n VectorObject.increaseAngles o)
  /\ VectorObject.rotateSpeed (Nat.iter n (advance zs mid) o)
     = VectorObject.rotateSpeed (Nat.iter n VectorObject.increaseAngles o).
Proof.
  induction n as [|n [IHa IHv]]; [split; reflexivity|].
  rewrite !Nat.iter_succ.
  destruct (advance_orientation zs mid (Nat.iter n (advance zs mid) o))
    as [Ea Ev].
  destruct (increaseAngles_orientation _ _ IHa IHv) as [Ea' Ev'].
  split; [now rewrite Ea, Ea'|].
  rewrite Ev, IHv. reflexivity.
Qed.

(** One frame advances the orientation of the object behind [r] once
    for every occurrence of [r] in [VectorObjs], and changes neither of
    the loop flags, whether the frame returns or raises. *)
Lemma frame_orientation (s : t) :
  running (state_of (frame s)) = running s
  /\ paused (state_of (frame s)) = paused s
  /\ forall r,
       VectorObject.angles (objects (state_of (frame s)) r)
       = VectorObject.angles
           (Nat.iter (occurrences (VectorObjs s) r)
              VectorObject.increaseAngles (objects s r)).
Proof.
  rewrite frame_unfold.
  destruct (keeping_after_rotate (rotate s)) as [Hr Hp _ _ Ha].
  unfold rotate in *.
  split; [|split].
  - rewrite Hr. apply (rotate_fold (VectorObjs s) s 0%nat).
  - rewrite Hp. apply (rotate_fold (VectorObjs s) s 0%nat).
  - intros r. destruct (Ha r) as [-> _].
    destruct (rotate_fold (VectorObjs s) s r) as [-> _].
    apply advance_iter_orientation.
Qed.

Lemma handle_events_inert (events : list event) (s : t) :
  forallb inert events = true -> handle_events events s = s.
Proof.
  unfold handle_events. revert s.
  induction events as [|e rest IH]; intros s H; cbn [fold_left]; [reflexivity|].
  cbn [forallb] in H. apply andb_prop in H as [He Hrest].
  replace (handle_event s e) with s; [now apply IH|].
  destruct e as [|key|]; cbn [inert handle_event] in *; try discriminate;
    [|reflexivity].
  destruct (dict_get key_to_function key); [discriminate|reflexivity].
Qed.

Lemma handle_events_scene (events : list event) (s : t) :
  objects (handle_events events s) = objects s
  /\ VectorObjs (handle_events events s) = VectorObjs s
  /\ calls (handle_events events s) = calls s
  /\ locks (handle_events events s) = locks s.
Proof.
  unfold handle_events. revert s.
  induction events as [|e rest IH]; intros s; cbn [fold_left]; [repeat split|].
  destruct (IH (handle_event s e)) as (Ho & Hv & Hc & Hl).
  rewrite Ho, Hv, Hc, Hl. clear.
  destruct e as [|key|]; cbn [handle_event]; [repeat split| |repeat split].
  cbn [dict_get key_to_function].
  destruct (key =? K_ESCAPE)%Z; [repeat split|].
  destruct (key =? K_SPACE)%Z; [|repeat split].
  unfold pause. destruct (paused s); repeat split.
Qed.

Lemma iteration_paused (events : list event) (s : t) :
  paused (handle_events events s) = true ->
  iteration events s = Done (do_call (time_wait 100) (handle_events events s)).
Proof.
  intros H. unfold iteration, and_then, pure_step. now rewrite H.
Qed.

Lemma iteration_running (events : list event) (s : t) :
  paused (handle_events events s) = false ->
  iteration events s = frame (handle_events events s).
Proof.
  intros H. unfold iteration, and_then, pure_step. now rewrite H.
Qed.

Lemma waits_fields (n : nat) (s : t) :
  running (waits n s) = running s
  /\ paused (waits n s) = paused s
  /\ objects (waits n s) = objects s
  /\ VectorObjs (waits n s) = VectorObjs s
  /\ calls (waits n s) = calls s ++ repeat (time_wait 100) n.
Proof.
  unfold waits. induction n as [|n (Hr & Hp & Ho & Hv & Hc)].
  - cbn. rewrite app_nil_r. repeat split.
  - rewrite Nat.iter_succ.
    cbn [do_call emit running paused objects VectorObjs calls].
    rewrite Hr, Hp, Ho, Hv, Hc. repeat split.
    rewrite <- app_assoc. f_equal.
    change (time_wait 100 :: repeat (time_wait 100) n)
      with (repeat (time_wait 100) (S n)).
    now rewrite <- repeat_cons.
Qed.

(** Paused, and fed only events that change no flag, the loop waits. *)
Lemma run_paused_idle (idle rest : list (list event)) (s : t) :
  running s = true ->
  paused s = true ->
  Forall (fun events => forallb inert events = true) idle ->
  run (idle ++ rest) s = run rest (waits (length idle) s).
Proof.
  intros Hr Hp Hidle. revert s Hr Hp.
  induction Hidle as [|events idle' He _ IH]; intros s Hr Hp; [reflexivity|].
  cbn [app run length]. rewrite Hr. unfold and_then at 1.
  rewrite iteration_paused; rewrite (handle_events_inert _ _ He); [|exact Hp].
  rewrite IH; [|exact Hr|exact Hp].
  unfold waits. now rewrite <- Nat.iter_succ_r.
Qed.

Lemma run_nil (s : t) : running s = true -> run [] s = Done s.
Proof. intros H. cbn [run]. now rewrite H. Qed.

Lemma run_last_frame (s : t) :
  running s = true ->
  run [] (state_of (frame s)) = Done (state_of (frame s)).
Proof.
  intros H. apply run_nil.
  destruct (frame_orientation s) as [-> _]. exact H.
Qed.

(** C7: an iteration that finds the viewer paused once its events are
    handled makes no transform or render pass: it only waits, and every
    object is as it was.  From a running viewer, a press of SPACE
    pauses it before any advance; through any number of iterations
    whose events change no flag it stays paused with its objects
    untouched; a second press of SPACE resumes it, and that iteration
    runs exactly one frame from the objects held when it was paused, so
    every orientation has advanced once per reference to its object,
    none skipped and none repeated. *)
Theorem pause_then_resume (vv : t) (idle : list (list event)) :
  running vv = true ->
  paused vv = false ->
  Forall (fun events => forallb inert events = true) idle ->
  (forall (s : t) (events : list event),
     paused (handle_events events s) = true ->
     exists s' : t,
       iteration events s = Done s'
       /\ objects s' = objects s
       /\ VectorObjs s' = VectorObjs s
       /\ calls s' = calls s ++ [time_wait 100])
  /\ exists p : t,
       run ([KEYDOWN K_SPACE] :: idle) vv = Done p
       /\ running p = true
       /\ paused p = true
       /\ objects p = objects vv
       /\ VectorObjs p = VectorObjs vv
       /\ calls p = calls vv ++ repeat (time_wait 100) (S (length idle))
       /\ run ([KEYDOWN K_SPACE] :: idle ++ [[KEYDOWN K_SPACE]]) vv
          = frame (pause p)
       /\ paused (pause p) = false
       /\ objects (pause p) = objects vv
       /\ running (state_of (frame (pause p))) = true
       /\ paused (state_of (frame (pause p))) = false
       /\ forall r : ref,
            VectorObject.angles (objects (state_of (frame (pause p))) r)
            = VectorObject.angles
                (Nat.iter (occurrences (VectorObjs vv) r)
                   VectorObject.increaseAngles (objects vv r)).
Proof.
  intros Hrun Hpau Hidle. split.
  - intros s events H. eexists. split; [apply (iteration_paused _ _ H)|].
    destruct (handle_events_scene events s) as (Ho & Hv & Hc & _).
    cbn [do_call emit objects VectorObjs calls]. now rewrite Ho, Hv, Hc.
  - set (q := do_call (time_wait 100) (set_paused vv true)).
    assert (Hfirst : iteration [KEYDOWN K_SPACE] vv = Done q).
    { unfold iteration, and_then, pure_step, handle_events.
      cbn [fold_left handle_event dict_get key_to_function].
      cbn. unfold pause. rewrite Hpau. reflexivity. }
    assert (Hq : running q = true /\ paused q = true) by (split; [exact Hrun|reflexivity]).
    destruct Hq as [Hqr Hqp].
    destruct (waits_fields (length idle) q) as (Wr & Wp & Wo & Wv & Wc).
    set (p := waits (length idle) q) in *.
    assert (Hpr : running p = true) by now rewrite Wr.
    assert (Hpp : paused p = true) by now rewrite Wp.
    assert (Hstep : forall rest,
              run ([KEYDOWN K_SPACE] :: idle ++ rest) vv = run rest p).
    { intros rest. cbn [run]. rewrite Hrun. unfold and_then at 1.
      rewrite Hfirst. now apply run_paused_idle. }
    assert (Hresume : pause p = set_paused p false)
      by (unfold pause; now rewrite Hpp).
    exists p. split.
    { rewrite <- (app_nil_r idle). rewrite Hstep. now apply run_nil. }
    split; [exact Hpr|]. split; [exact Hpp|].
    split; [now rewrite Wo|]. split; [now rewrite Wv|].
    split.
    { rewrite Wc. unfold q. cbn [do_call emit calls set_paused].
      rewrite <- app_assoc. reflexivity. }
    assert (Hrp : running (pause p) = true) by (rewrite Hresume; exact Hpr).
    destruct (frame_orientation (pause p)) as (Fr & Fp & Fa).
    split.
    { rewrite Hstep. cbn [run]. rewrite Hpr. unfold and_then.
      rewrite iteration_running.
      - change (handle_events [KEYDOWN K_SPACE] p) with (pause p).
        pose proof (run_last_frame (pause p) Hrp) as Hlast.
        destruct (frame (pause p)) as [s'|e s']; cbn [state_of] in *;
          [exact Hlast|reflexivity].
      - change (handle_events [KEYDOWN K_SPACE] p) with (pause p).
        now rewrite Hresume. }
    split; [now rewrite Hresume|].
    split; [rewrite Hresume; cbn [set_paused objects]; now rewrite Wo|].
    split; [now rewrite Fr|].
    split; [rewrite Fp; now rewrite Hresume|].
    intros r. rewrite Fa. rewrite Hresume.
    cbn [set_paused objects VectorObjs]. now rewrite Wo, Wv.
Qed.

(** The viewer of the main program, paused by SPACE, left through
    three iterations with no event, a mouse move and the key A, and
    resumed by SPACE. *)
Lemma pause_then_resume_witness :
  (forall (s : t) (events : list event),
     paused (handle_events events s) = true ->
     exists s' : t,
       iteration events s = Done s'
       /\ objects s' = objects s
       /\ VectorObjs s' = VectorObjs s
       /\ calls s' = calls s ++ [time_wait 100])
  /\ exists p : t,
       run ([KEYDOWN K_SPACE] :: [[]; [OTHER]; [KEYDOWN 97]]) Main.vv = Done p
       /\ running p = true
       /\ paused p = true
       /\ objects p = objects Main.vv
       /\ VectorObjs p = VectorObjs Main.vv
       /\ calls p
          = calls Main.vv
            ++ repeat (time_wait 100) (S (length [[]; [OTHER]; [KEYDOWN 97]]))
       /\ run ([KEYDOWN K_SPACE] :: [[]; [OTHER]; [KEYDOWN 97]]
                 ++ [[KEYDOWN K_SPACE]]) Main.vv
          = frame (pause p)
       /\ paused (pause p) = false
       /\ objects (pause p) = objects Main.vv
       /\ running (state_of (frame (pause p))) = true
       /\ paused (state_of (frame (pause p))) = false
       /\ forall r : ref,
            VectorObject.angles (objects (state_of (frame (pause p))) r)
            = VectorObject.angles
                (Nat.iter (occurrences (VectorObjs Main.vv) r)
                   VectorObject.increaseAngles (objects Main.vv r)).
Proof.
  apply (pause_then_resume Main.vv [[]; [OTHER]; [KEYDOWN 97]]);
    [reflexivity | reflexivity | repeat constructor].
Defined.

End PauseResume.


(** ** Rigid motion *)

Section RigidMotion.

Import VectorObject.

Lemma sin_full_turn_back (x : R) : sin (x - 2 * PI) = sin x.
Proof.
  rewrite <- (sin_period (x - 2 * PI) 1). f_equal. cbn [INR]. ring.
Qed.

Lemma cos_full_turn_back (x : R) : cos (x - 2 * PI) = cos x.
Proof.
  rewrite <- (cos_period (x - 2 * PI) 1). f_equal. cbn [INR]. ring.
Qed.

Lemma sin_full_turn (x : R) : sin (x + 2 * PI) = sin x.
Proof.
  rewrite <- (sin_period x 1). f_equal. cbn [INR]. ring.
Qed.

Lemma cos_full_turn (x : R) : cos (x + 2 * PI) = cos x.
Proof.
  rewrite <- (cos_period x 1). f_equal. cbn [INR]. ring.
Qed.

Lemma radians_less_turn (a : R) :
  degrees_to_radians (a - 360) = degrees_to_radians a - 2 * PI.
Proof. unfold degrees_to_radians. field. Qed.

Lemma radians_more_turn (a : R) :
  degrees_to_radians (a + 360) = degrees_to_radians a + 2 * PI.
Proof. unfold degrees_to_radians. field. Qed.

Lemma wrap_once_sin_cos (a : R) :
  sin (degrees_to_radians (wrap_once a)) = sin (degrees_to_radians a)
  /\ cos (degrees_to_radians (wrap_once a)) = cos (degrees_to_radians a).
Proof.
  unfold wrap_once.
  destruct (Rge_dec a 360); destruct (Rlt_dec _ 0);
    rewrite ?radians_more_turn, ?radians_less_turn,
      ?sin_full_turn, ?cos_full_turn,
      ?sin_full_turn_back, ?cos_full_turn_back;
    split; reflexivity.
Qed.

Lemma wrap_once_rotations (a : R) :
  rot_x (degrees_to_radians (wrap_once a)) = rot_x (degrees_to_radians a)
  /\ rot_y (degrees_to_radians (wrap_once a)) = rot_y (degrees_to_radians a)
  /\ rot_z (degrees_to_radians (wrap_once a)) = rot_z (degrees_to_radians a).
Proof.
  destruct (wrap_once_sin_cos a) as [Hs Hc].
  unfold rot_x, rot_y, rot_z. rewrite Hs, Hc. repeat split.
Qed.

(** One advance: the matrix built from the advanced orientation is the
    composition at the plain sums of angle and velocity. *)
Lemma wrapping_keeps_rotation (o : t) :
  rotationMatrix (setRotationMatrix (increaseAngles o))
  = euler_xyz (add3 (angles o) (rotateSpeed o)).
Proof.
  rewrite setRotationMatrix_matrix, increaseAngles_angles.
  destruct (add3 (angles o) (rotateSpeed o)) as [[x y] z].
  unfold euler_xyz.
  destruct (wrap_once_rotations x) as (-> & _ & _).
  destruct (wrap_once_rotations y) as (_ & -> & _).
  destruct (wrap_once_rotations z) as (_ & _ & ->).
  reflexivity.
Qed.

Lemma rot_x_row_orthogonal (t : R) : row_orthogonal (rot_x t).
Proof.
  unfold row_orthogonal, rot_x, identity33.
  cbn [transpose mat_mul row_mul add3 scale3].
  pose proof (sin_cos_square t) as H.
  apply vec3_eq; apply vec3_eq; ring_simplify; try reflexivity; lra.
Qed.

Lemma rot_y_row_orthogonal (t : R) : row_orthogonal (rot_y t).
Proof.
  unfold row_orthogonal, rot_y, identity33.
  cbn [transpose mat_mul row_mul add3 scale3].
  pose proof (sin_cos_square t) as H.
  apply vec3_eq; apply vec3_eq; ring_simplify; try reflexivity; lra.
Qed.

Lemma rot_z_row_orthogonal (t : R) : row_orthogonal (rot_z t).
Proof.
  unfold row_orthogonal, rot_z, identity33.
  cbn [transpose mat_mul row_mul add3 scale3].
  pose proof (sin_cos_square t) as H.
  apply vec3_eq; apply vec3_eq; ring_simplify; try reflexivity; lra.
Qed.

Lemma row_orthogonal_mat_mul (a b : mat33) :
  row_orthogonal a -> row_orthogonal b -> row_orthogonal (mat_mul a b).
Proof.
  unfold row_orthogonal. intros Ha Hb.
  rewrite transpose_mat_mul, mat_mul_assoc, <- (mat_mul_assoc b).
  now rewrite Hb, <- mat_mul_assoc, mat_mul_identity_r.
Qed.

Lemma euler_xyz_row_orthogonal (a : vec3) : row_orthogonal (euler_xyz a).
Proof.
  destruct a as [[ax ay] az]. unfold euler_xyz.
  repeat apply row_orthogonal_mat_mul;
    [apply rot_x_row_orthogonal | apply rot_y_row_orthogonal
    | apply rot_z_row_orthogonal].
Qed.

Lemma sq_norm_rows (m00 m01 m02 m10 m11 m12 m20 m21 m22 x y z : R) :
  m00 * m00 + m01 * m01 + m02 * m02 = 1 ->
  m10 * m10 + m11 * m11 + m12 * m12 = 1 ->
  m20 * m20 + m21 * m21 + m22 * m22 = 1 ->
  m00 * m10 + m01 * m11 + m02 * m12 = 0 ->
  m00 * m20 + m01 * m21 + m02 * m22 = 0 ->
  m10 * m20 + m11 * m21 + m12 * m22 = 0 ->
  (x * m00 + y * m10 + z * m20) * (x * m00 + y * m10 + z * m20)
  + (x * m01 + y * m11 + z * m21) * (x * m01 + y * m11 + z * m21)
  + (x * m02 + y * m12 + z * m22) * (x * m02 + y * m12 + z * m22)
  = x * x + y * y + z * z.
Proof.
  intros H00 H11 H22 H01 H02 H12.
  transitivity
    (x * x * (m00 * m00 + m01 * m01 + m02 * m02)
     + y * y * (m10 * m10 + m11 * m11 + m12 * m12)
     + z * z * (m20 * m20 + m21 * m21 + m22 * m22)
     + 2 * x * y * (m00 * m10 + m01 * m11 + m02 * m12)
     + 2 * x * z * (m00 * m20 + m01 * m21 + m02 * m22)
     + 2 * y * z * (m10 * m20 + m11 * m21 + m12 * m22)); [ring|].
  rewrite H00, H11, H22, H01, H02, H12. ring.
Qed.

Lemma rotate_then_translate_rigid (m : mat33) (p u v : vec3) :
  row_orthogonal m ->
  sq_dist (rotate_then_translate m p u) (rotate_then_translate m p v)
  = sq_dist u v.
Proof.
  destruct m as [[[[m00 m01] m02] [[m10 m11] m12]] [[m20 m21] m22]].
  destruct p as [[px py] pz]. destruct u as [[a b] c]. destruct v as [[x y] z].
  unfold row_orthogonal, identity33.
  cbn [transpose mat_mul row_mul add3 scale3 rotate_then_translate sq_dist].
  intros H. injection H as H00 H01 H02 H10 H11 H12 H20 H21 H22.
  rewrite <- (sq_norm_rows m00 m01 m02 m10 m11 m12 m20 m21 m22
                (a - x) (b - y) (c - z)) by lra.
  ring.
Qed.

Lemma rotatedNodes_per_vertex (o : t) (node_array : list vec3) :
  rotatedNodes (rotate (setRotationMatrix (addNodes o node_array)))
  = map (rotate_then_translate (euler_xyz (angles o)) (slice03 (position o)))
      node_array.
Proof.
  rewrite rotate_after_setRotationMatrix. unfold addNodes.
  cbn [nodes angles position set_rotatedNodes set_nodes].
  unfold world_vertices, dot, hstack_ones. rewrite map_map.
  apply map_ext. intros v. apply row_dot43_fused.
Qed.

(** X1: the object moves as a rigid body: at every orientation and
    position, the world-space images of two vertices are as far from
    each other as the vertices are in the object's own frame. *)
Theorem rotate_keeps_distances
    (o : t) (node_array : list vec3) (i j : nat) (u v : vec3) :
  nth_error node_array i = Some u ->
  nth_error node_array j = Some v ->
  exists u' v' : vec3,
    nth_error
      (rotatedNodes (rotate (setRotationMatrix (addNodes o node_array)))) i
    = Some u'
    /\ nth_error
         (rotatedNodes (rotate (setRotationMatrix (addNodes o node_array)))) j
       = Some v'
    /\ sq_dist u' v' = sq_dist u v.
Proof.
  intros Hi Hj. rewrite rotatedNodes_per_vertex.
  do 2 eexists. rewrite !nth_error_map, Hi, Hj. cbn [option_map].
  split; [reflexivity|]. split; [reflexivity|].
  apply rotate_then_translate_rigid, euler_xyz_row_orthogonal.
Qed.

(** Two opposite corners of the cube of the main program. *)
Lemma rotate_keeps_distances_witness :
  exists u' v' : vec3,
    nth_error
      (rotatedNodes
         (rotate (setRotationMatrix (addNodes Main.vobj Main.node_array)))) 0
    = Some u'
    /\ nth_error
         (rotatedNodes
            (rotate (setRotationMatrix (addNodes Main.vobj Main.node_array)))) 6
       = Some v'
    /\ sq_dist u' v' = sq_dist (100, 100, 100) (-100, -100, -100).
Proof.
  apply (rotate_keeps_distances Main.vobj Main.node_array 0 6
           (100, 100, 100) (-100, -100, -100)); reflexivity.
Defined.

(** X2: at orientation (0,0,0) the shape is not turned: every
    world-space vertex is the object's vertex moved by the position. *)
Theorem zero_orientation_translates (o : t) (node_array : list vec3) :
  angles o = (0, 0, 0) ->
  rotatedNodes (rotate (setRotationMatrix (addNodes o node_array)))
  = map (fun v => add3 v (slice03 (position o))) node_array.
Proof.
  intros Ha. rewrite rotatedNodes_per_vertex, Ha, euler_xyz_zero.
  apply map_ext. intros [[x y] z].
  destruct (slice03 (position o)) as [[px py] pz].
  cbn [rotate_then_translate row_mul add3 scale3].
  apply vec3_eq; ring.
Qed.

Lemma zero_orientation_translates_witness :
  rotatedNodes (rotate (setRotationMatrix (addNodes Main.vobj Main.node_array)))
  = map (fun v => add3 v (slice03 (position Main.vobj))) Main.node_array.
Proof.
  apply (zero_orientation_translates Main.vobj Main.node_array). reflexivity.
Defined.

End RigidMotion.


(** ** Perspective *)

Section Perspective.

Import VectorObject.







End Perspective.


(** ** Depth order *)

Section SortedAlready.

Context {A : Type}.
Variable key : A -> R.

Lemma insert_by_key_least (x : A) (l : list A) :
  Forall (ascending key x) l -> insert_by_key key x l = x :: l.
Proof.
  intros H. destruct H as [|y rest Hy _]; cbn [insert_by_key]; [reflexivity|].
  unfold ascending in Hy. destruct (Rlt_dec (key y) (key x)); [lra|reflexivity].
Qed.

Lemma sort_ascending_fixed (l : list A) :
  StronglySorted (ascending key) l -> sort_ascending key l = l.
Proof.
  induction 1 as [|x rest Hs IH Hx]; [reflexivity|].
  cbn [sort_ascending fold_right]. fold (sort_ascending key rest).
  rewrite IH. now apply insert_by_key_least.
Qed.

Lemma rev_descending_ascending (l : list A) :
  StronglySorted (descending key) l -> StronglySorted (ascending key) (rev l).
Proof.
  induction 1 as [|y rest Hs IH Hy]; cbn [rev]; [constructor|].
  apply sorted_app_one; [exact IH|].
  apply Forall_rev. revert Hy. apply Forall_impl.
  unfold ascending, descending. intros z Hz. lra.
Qed.

Lemma py_sort_reverse_fixed (l : list A) :
  StronglySorted (descending key) l -> py_sort_reverse key l = l.
Proof.
  intros H. unfold py_sort_reverse.
  rewrite (sort_ascending_fixed _ (rev_descending_ascending _ H)).
  apply rev_involutive.
Qed.

End SortedAlready.


Section DepthOrder.

Import VectorObject.

Lemma setZPos_own_depth (s : Surface.t) : Surface.setZPos s (Surface.zpos s) = s.
Proof. now destruct s. Qed.

Lemma update_loop_current (rotated : list vec3) (ss : list Surface.t) :
  depths_current rotated ss -> update_loop rotated ss = (ss, None).
Proof.
  induction 1 as [|s rest Hs _ IH]; [reflexivity|].
  cbn [update_loop]. now rewrite Hs, IH, setZPos_own_depth.
Qed.

Lemma update_loop_makes_current (rotated : list vec3) (ss : list Surface.t) :
  snd (update_loop rotated ss) = None ->
  depths_current rotated (fst (update_loop rotated ss)).
Proof.
  induction ss as [|s rest IH]; cbn [update_loop]; [constructor|].
  destruct (surface_zpos rotated (Surface.nodes s)) as [e|z] eqn:E;
    [discriminate|].
  destruct (update_loop rotated rest) as [rest' r]. cbn [fst snd] in *.
  intros Hr. constructor; [exact E|now apply IH].
Qed.

(** An object whose surfaces hold current depths, most distant first,
    passes through the depth pass unchanged. *)
Lemma depth_pass_fixed (o : t) :
  depths_current (rotatedNodes o) (surfaces o) ->
  StronglySorted farther_first (surfaces o) ->
  depth_pass o = Done o.
Proof.
  intros Hc Hs. unfold depth_pass, and_then, pure_step, updateSurfaceZPos.
  rewrite (update_loop_current _ _ Hc).
  unfold sortSurfacesByZPos. cbn [surfaces set_surfaces].
  rewrite (py_sort_reverse_fixed Surface.zpos _ Hs). now destruct o.
Qed.

(** What the depth pass leaves when it returns. *)
Lemma depth_pass_result (o o1 : t) :
  depth_pass o = Done o1 ->
  rotatedNodes o1 = rotatedNodes o
  /\ depths_current (rotatedNodes o) (surfaces o1)
  /\ StronglySorted farther_first (surfaces o1).
Proof.
  unfold depth_pass, and_then, pure_step, updateSurfaceZPos. intros H.
  pose proof (update_loop_makes_current (rotatedNodes o) (surfaces o)) as Hc.
  destruct (update_loop (rotatedNodes o) (surfaces o)) as [ss [e|]];
    [discriminate|].
  injection H as <-. specialize (Hc eq_refl). cbn [fst] in Hc.
  unfold sortSurfacesByZPos. cbn [rotatedNodes surfaces set_surfaces].
  split; [reflexivity|]. split.
  - apply (Permutation_Forall (py_sort_reverse_perm Surface.zpos ss)).
    exact Hc.
  - apply py_sort_reverse_descending.
Qed.


(** X5: once the depth pass of a frame has returned, running it again
    on the object changes nothing: the depths are recomputed to the
    same values and the sort leaves the sorted list as it is, so an
    object whose world-space vertices stay put is drawn in the same
    order frame after frame. *)
Theorem depth_pass_settles (o o1 : t) :
  depth_pass o = Done o1 -> depth_pass o1 = Done o1.
Proof.
  intros H. destruct (depth_pass_result o o1 H) as (Hr & Hc & Hs).
  rewrite <- Hr in Hc.
  apply depth_pass_fixed; assumption.
Qed.

Lemma depth_pass_settles_witness :
  depth_pass (state_of (depth_pass two_vertices))
  = Done (state_of (depth_pass two_vertices)).
Proof.
  apply (depth_pass_settles two_vertices (state_of (depth_pass two_vertices))).
  reflexivity.
Defined.








End DepthOrder.


(** ** What the depth pass accepts and where it raises *)

Section DepthErrors.

Import VectorObject.

Lemma vertex_of_index (n : nat) (i : Z) :
  accepted_index n i ->
  (0 <= vertex_of n i < Z.of_nat n)%Z
  /\ (0 <= i -> vertex_of n i = i)%Z
  /\ (i < 0 -> vertex_of n i = Z.of_nat n + i)%Z.
Proof.
  unfold accepted_index, vertex_of. intros H.
  split; [apply Z.mod_pos_bound; lia|]. split; intros Hi.
  - apply Z.mod_small. lia.
  - rewrite <- (Z.mod_add i 1 (Z.of_nat n)) by lia.
    rewrite Z.mod_small; lia.
Qed.

Lemma node_z_accepted (rotated : list vec3) (i : Z) :
  accepted_index (length rotated) i ->
  node_z rotated i = Some (world_z rotated (vertex_of (length rotated) i)).
Proof.
  intros H. destruct (vertex_of_index _ _ H) as (Hv & Hpos & Hneg).
  rewrite <- (node_z_valid rotated _ Hv). unfold accepted_index in H.
  destruct (Z.le_gt_cases 0 i) as [Hi|Hi].
  - now rewrite (Hpos Hi).
  - rewrite (Hneg Hi). unfold node_z, index.
    destruct (Z.leb_spec 0 i) as [|_]; [lia|].
    destruct (Z.leb_spec (- Z.of_nat (length rotated)) i) as [_|]; [|lia].
    destruct (Z.leb_spec 0 (Z.of_nat (length rotated) + i)) as [_|]; [|lia].
    reflexivity.
Qed.

Lemma node_zs_accepted (rotated : list vec3) (node_list : list Z) :
  Forall (accepted_index (length rotated)) node_list ->
  node_zs rotated node_list
  = Some (map (fun i => world_z rotated (vertex_of (length rotated) i))
            node_list).
Proof.
  induction 1 as [|i rest Hi _ IH]; [reflexivity|].
  cbn [node_zs map]. now rewrite (node_z_accepted _ _ Hi), IH.
Qed.

Lemma surface_zpos_accepted (rotated : list vec3) (s : Surface.t) :
  accepted_surface (length rotated) s ->
  surface_zpos rotated (Surface.nodes s) = inr (mean_depth rotated s).
Proof.
  intros [Hne Hall]. unfold surface_zpos, mean_depth, mean.
  rewrite (node_zs_accepted _ _ Hall), py_sum_fold_right, length_map.
  destruct (Surface.nodes s); [contradiction|reflexivity].
Qed.

Lemma update_loop_accepted (rotated : list vec3) (ss : list Surface.t) :
  Forall (accepted_surface (length rotated)) ss ->
  update_loop rotated ss
  = (map (fun s => Surface.setZPos s (mean_depth rotated s)) ss, None).
Proof.
  induction 1 as [|s rest Hs _ IH]; [reflexivity|].
  cbn [update_loop map]. now rewrite (surface_zpos_accepted _ _ Hs), IH.
Qed.

(** X7: [updateSurfaceZPos] takes vertex indices as numpy does: an
    index from -N to -1 names a vertex counted from the end.  When
    every surface has at least one index and all indices lie from -N
    to N-1, the call returns and every depth is the mean over the
    vertices so named. *)
Theorem updateSurfaceZPos_negative_indices (o : t) :
  Forall (accepted_surface (length (rotatedNodes o))) (surfaces o) ->
  updateSurfaceZPos o
  = Done (set_surfaces o
            (map (fun s => Surface.setZPos s (mean_depth (rotatedNodes o) s))
               (surfaces o))).
Proof.
  intros H. unfold updateSurfaceZPos. now rewrite (update_loop_accepted _ _ H).
Qed.

Lemma updateSurfaceZPos_negative_indices_witness :
  updateSurfaceZPos two_vertices_from_end
  = Done (set_surfaces two_vertices_from_end
            (map (fun s =>
                    Surface.setZPos s
                      (mean_depth (rotatedNodes two_vertices_from_end) s))
               (surfaces two_vertices_from_end))).
Proof.
  apply (updateSurfaceZPos_negative_indices two_vertices_from_end).
  repeat constructor; [discriminate | |]; unfold accepted_index; cbn; lia.
Defined.

(** The loop stops at the first surface it cannot take: the surfaces
    before it have their depth, it and the ones after it are as they
    were. *)
Lemma update_loop_stops (rotated : list vec3) (ss : list Surface.t)
    (k : nat) (s : Surface.t) (e : exn) :
  nth_error ss k = Some s ->
  surface_zpos rotated (Surface.nodes s) = inl e ->
  Forall (accepted_surface (length rotated)) (firstn k ss) ->
  update_loop rotated ss
  = (map (fun s0 => Surface.setZPos s0 (mean_depth rotated s0)) (firstn k ss)
     ++ skipn k ss,
     Some e).
Proof.
  revert k. induction ss as [|s0 rest IH]; intros k Hk He Hbefore.
  - destruct k; discriminate.
  - destruct k as [|k]; cbn [update_loop firstn skipn map app].
    + injection Hk as ->. now rewrite He.
    + cbn [firstn] in Hbefore. inversion Hbefore as [|? ? Hs0 Hrest]; subst.
      rewrite (surface_zpos_accepted _ _ Hs0).
      now rewrite (IH k Hk He Hrest).
Qed.

Lemma node_zs_rejected (rotated : list vec3) (node_list : list Z) (i : Z) :
  In i node_list ->
  rejected_index (length rotated) i ->
  node_zs rotated node_list = None.
Proof.
  intros Hin Hrej. induction node_list as [|j rest IH]; [contradiction|].
  cbn [node_zs]. destruct Hin as [->|Hin].
  - unfold node_z, index. unfold rejected_index in Hrej.
    destruct (Z.leb_spec 0 i) as [Hi|Hi].
    + assert (Hn : nth_error rotated (Z.to_nat i) = None)
        by (apply nth_error_None; lia).
      now rewrite Hn.
    + destruct (Z.leb_spec (- Z.of_nat (length rotated)) i); [lia|reflexivity].
  - destruct (node_z rotated j); [|reflexivity]. now rewrite (IH Hin).
Qed.

(** X8: a surface with no vertex index makes [updateSurfaceZPos] raise
    ZeroDivisionError when the loop reaches it: the surfaces before it
    hold their new depth, and it and every later surface are as they
    were. *)
Theorem updateSurfaceZPos_empty_surface (o : t) (k : nat) (s : Surface.t) :
  nth_error (surfaces o) k = Some s ->
  Surface.nodes s = [] ->
  Forall (accepted_surface (length (rotatedNodes o))) (firstn k (surfaces o)) ->
  updateSurfaceZPos o
  = Raised ZeroDivisionError
      (set_surfaces o
         (map (fun s0 => Surface.setZPos s0 (mean_depth (rotatedNodes o) s0))
            (firstn k (surfaces o))
          ++ skipn k (surfaces o))).
Proof.
  intros Hk Hs Hbefore. unfold updateSurfaceZPos.
  rewrite (update_loop_stops _ _ k s ZeroDivisionError Hk); [reflexivity| |exact Hbefore].
  unfold surface_zpos. now rewrite Hs.
Qed.

Lemma updateSurfaceZPos_empty_surface_witness :
  updateSurfaceZPos with_empty_surface
  = Raised ZeroDivisionError
      (set_surfaces with_empty_surface
         (map (fun s0 =>
                 Surface.setZPos s0
                   (mean_depth (rotatedNodes with_empty_surface) s0))
            (firstn 1 (surfaces with_empty_surface))
          ++ skipn 1 (surfaces with_empty_surface))).
Proof.
  apply (updateSurfaceZPos_empty_surface with_empty_surface 1
           (Surface.mk 8 [] (1, 2, 3)%Z 0 0));
    [reflexivity | reflexivity |].
  repeat constructor; [discriminate | |]; unfold accepted_index; cbn; lia.
Defined.

(** X9: a surface naming a vertex the object does not have (an index
    of N or more, or below -N) makes [updateSurfaceZPos] raise
    IndexError when the loop reaches it, with the surfaces before it
    updated and the others untouched. *)
Theorem updateSurfaceZPos_bad_index
    (o : t) (k : nat) (s : Surface.t) (i : Z) :
  nth_error (surfaces o) k = Some s ->
  In i (Surface.nodes s) ->
  rejected_index (length (rotatedNodes o)) i ->
  Forall (accepted_surface (length (rotatedNodes o))) (firstn k (surfaces o)) ->
  updateSurfaceZPos o
  = Raised IndexError
      (set_surfaces o
         (map (fun s0 => Surface.setZPos s0 (mean_depth (rotatedNodes o) s0))
            (firstn k (surfaces o))
          ++ skipn k (surfaces o))).
Proof.
  intros Hk Hin Hrej Hbefore. unfold updateSurfaceZPos.
  rewrite (update_loop_stops _ _ k s IndexError Hk); [reflexivity| |exact Hbefore].
  unfold surface_zpos. now rewrite (node_zs_rejected _ _ _ Hin Hrej).
Qed.

Lemma updateSurfaceZPos_bad_index_witness :
  updateSurfaceZPos with_bad_index
  = Raised IndexError
      (set_surfaces with_bad_index
         (map (fun s0 =>
                 Surface.setZPos s0
                   (mean_depth (rotatedNodes with_bad_index) s0))
            (firstn 1 (surfaces with_bad_index))
          ++ skipn 1 (surfaces with_bad_index))).
Proof.
  apply (updateSurfaceZPos_bad_index with_bad_index 1
           (Surface.mk 8 [0; 2]%Z (1, 2, 3)%Z 0 0) 2%Z);
    [reflexivity | cbn; auto | unfold rejected_index; cbn; lia |].
  repeat constructor; [discriminate | |]; unfold accepted_index; cbn; lia.
Defined.

End DepthErrors.


(** ** The main loop: events and quitting *)

Section LoopEvents.

Import Pygame VectorViewer.

Lemma pause_pause (s : t) : pause (pause s) = s.
Proof. destruct s as [? ? ? ? ? ? ? ? ? ? ? ? []]; reflexivity. Qed.

Lemma handle_events_cons (e : event) (events : list event) (s : t) :
  handle_events (e :: events) s = handle_events events (handle_event s e).
Proof. reflexivity. Qed.

(** X10: presses of SPACE that arrive in the same iteration are all
    handled before the flag is read: an even number of them leaves the
    viewer exactly as it was (it never pauses), an odd number acts as
    one. *)
Theorem space_presses_cancel (n : nat) (s : t) :
  handle_events (repeat (KEYDOWN K_SPACE) n) s
  = if Nat.even n then s else pause s.
Proof.
  revert s. induction n as [|n IH]; intros s; [reflexivity|].
  cbn [repeat]. rewrite handle_events_cons.
  change (handle_event s (KEYDOWN K_SPACE)) with (pause s).
  rewrite IH, Nat.even_succ, <- Nat.negb_even.
  destruct (Nat.even n); cbn [negb]; [reflexivity|apply pause_pause].
Qed.

Lemma handle_event_inert (e : event) (s : t) :
  inert e = true -> handle_event s e = s.
Proof.
  destruct e as [|key|]; cbn [inert handle_event]; try discriminate;
    [|reflexivity].
  destruct (dict_get key_to_function key); [discriminate|reflexivity].
Qed.

(** X11: events that are neither QUIT nor a press of ESC or SPACE (a
    key with no entry in [key_to_function], any other event type) have
    no effect wherever they stand in a batch: the batch acts as the
    batch without them. *)
Theorem unmapped_events_ignored (events : list event) (s : t) :
  handle_events events s
  = handle_events (filter (fun e => negb (inert e)) events) s
  /\ iteration events s
     = iteration (filter (fun e => negb (inert e)) events) s.
Proof.
  assert (H : forall s0,
            handle_events events s0
            = handle_events (filter (fun e => negb (inert e)) events) s0).
  { induction events as [|e rest IH]; intros s0; [reflexivity|].
    cbn [filter]. rewrite handle_events_cons.
    destruct (inert e) eqn:E; cbn [negb].
    - rewrite (handle_event_inert _ _ E). apply IH.
    - rewrite handle_events_cons. apply IH. }
  split; [apply H|].
  unfold iteration, and_then, pure_step. now rewrite H.
Qed.

Lemma iteration_running_flag (events : list event) (s : t) :
  running (state_of (iteration events s)) = running (handle_events events s).
Proof.
  unfold iteration, and_then, pure_step.
  destruct (paused (handle_events events s)); [reflexivity|].
  apply frame_orientation.
Qed.

(** X12: a request to quit (QUIT, or a press of ESC) does not cut the
    iteration it arrives in short: the rest of that iteration runs,
    one more frame when the viewer is not paused, and only then does
    the loop end and the display close; the batches after it are never
    read. *)
Theorem run_ends_after_the_iteration
    (events : list event) (rest : list (list event)) (s : t) :
  running s = true ->
  running (handle_events events s) = false ->
  run (events :: rest) s
  = (iteration events ;; pure_step (do_call display_quit)) s
  /\ (paused (handle_events events s) = false ->
      iteration events s = frame (handle_events events s)).
Proof.
  intros Hr Hq. split; [|apply iteration_running].
  cbn [run]. rewrite Hr. unfold and_then.
  pose proof (iteration_running_flag events s) as Hflag.
  destruct (iteration events s) as [s'|e s']; [|reflexivity].
  cbn [state_of] in Hflag. destruct rest; cbn [run];
    rewrite Hflag, Hq; reflexivity.
Qed.

(** The viewer of the main program when ESC is pressed, with two more
    batches queued. *)
Lemma run_ends_after_the_iteration_witness :
  run ([KEYDOWN K_ESCAPE] :: [[KEYDOWN K_SPACE]; []]) Main.vv
  = (iteration [KEYDOWN K_ESCAPE] ;; pure_step (do_call display_quit)) Main.vv
  /\ (paused (handle_events [KEYDOWN K_ESCAPE] Main.vv) = false ->
      iteration [KEYDOWN K_ESCAPE] Main.vv
      = frame (handle_events [KEYDOWN K_ESCAPE] Main.vv)).
Proof.
  apply (run_ends_after_the_iteration [KEYDOWN K_ESCAPE]
           [[KEYDOWN K_SPACE]; []] Main.vv); reflexivity.
Defined.

Lemma occurrences_added (l : list ref) (r : ref) :
  occurrences (l ++ [r]) r = S (occurrences l r).
Proof.
  unfold occurrences, ref in *. rewrite count_occ_app. cbn [count_occ].
  destruct (Nat.eq_dec r r); [lia|contradiction].
Qed.

(** X13: [VectorViewer.rotate] works through references: in one call,
    an object is advanced once for every time it was added to the
    viewer.  An object that was not added is left alone, and one added
    twice turns twice per frame. *)
Theorem rotate_advances_per_reference (s : t) (r : ref) :
  objects (rotate s) r
  = Nat.iter (occurrences (VectorObjs s) r)
      (advance (zScale s) (midScreen s)) (objects s r)
  /\ VectorObject.angles (objects (rotate s) r)
     = VectorObject.angles
         (Nat.iter (occurrences (VectorObjs s) r)
            VectorObject.increaseAngles (objects s r))
  /\ occurrences (VectorObjs (addVectorObj s r)) r
     = S (occurrences (VectorObjs s) r).
Proof.
  destruct (rotate_fold (VectorObjs s) s r) as [Ho _].
  unfold rotate. rewrite Ho.
  split; [reflexivity|].
  split; [apply advance_iter_orientation|].
  apply occurrences_added.
Qed.

End LoopEvents.


(** ** Drawing a frame *)

Section Drawing.

Import Pygame VectorViewer.







Lemma accepted_surface_setZPos (n : nat) (z : R) (s : VectorObjectSurface.t) :
  accepted_surface n s -> accepted_surface n (VectorObjectSurface.setZPos s z).
Proof. intros H. exact H. Qed.







Lemma display_unfold (s : t) :
  display s
  = match for_each display_obj (VectorObjs s)
            (do_call (screen_fill (backgroundColor s)) (do_call screen_lock s))
    with
    | Done s' => Done (do_call screen_unlock s')
    | Raised e s' => Raised e s'
    end.
Proof. reflexivity. Qed.



Lemma advance_shape (zs : R) (mid : vec2) (o : VectorObject.t) :
  VectorObject.nodes (advance zs mid o) = VectorObject.nodes o
  /\ VectorObject.surfaces (advance zs mid o) = VectorObject.surfaces o
  /\ length (VectorObject.rotatedNodes (advance zs mid o))
     = length (VectorObject.nodes o)
  /\ length (VectorObject.transNodes (advance zs mid o))
     = length (VectorObject.nodes o).
Proof.
  unfold advance, VectorObject.transform, VectorObject.rotate,
    VectorObject.setRotationMatrix.
  destruct (sin3 _) as [[sx sy] sz]. destruct (cos3 _) as [[cx cy] cz].
  cbn [VectorObject.nodes VectorObject.surfaces VectorObject.rotatedNodes
       VectorObject.transNodes VectorObject.set_transNodes
       VectorObject.set_rotatedNodes VectorObject.set_rotationMatrix].
  unfold dot. rewrite !length_map.
  unfold VectorObject.increaseAngles. repeat split.
Qed.

Lemma advance_iter_shape (zs : R) (mid : vec2) (n : nat) (o : VectorObject.t) :
  VectorObject.nodes (Nat.iter n (advance zs mid) o) = VectorObject.nodes o
  /\ VectorObject.surfaces (Nat.iter n (advance zs mid) o)
     = VectorObject.surfaces o
  /\ ((0 < n)%nat ->
      length (VectorObject.rotatedNodes (Nat.iter n (advance zs mid) o))
      = length (VectorObject.nodes o)
      /\ length (VectorObject.transNodes (Nat.iter n (advance zs mid) o))
         = length (VectorObject.nodes o)).
Proof.
  induction n as [|n (IHn & IHs & _)]; [repeat split; lia|].
  rewrite Nat.iter_succ.
  destruct (advance_shape zs mid (Nat.iter n (advance zs mid) o))
    as (En & Es & Er & Et).
  rewrite En, Es, Er, Et, IHn, IHs. repeat split.
Qed.

Lemma rotate_screen (l : list ref) (s : t) :
  locks (fold_left rotate_obj l s) = locks s
  /\ backgroundColor (fold_left rotate_obj l s) = backgroundColor s
  /\ target_fps (fold_left rotate_obj l s) = target_fps s.
Proof.
  revert s. induction l as [|x rest IH]; intros s; cbn [fold_left];
    [repeat split|].
  destruct (IH (rotate_obj s x)) as (Hl & Hb & Hf).
  rewrite Hl, Hb, Hf. repeat split.
Qed.







Lemma updateSurfaceZPos_first_empty (o : VectorObject.t) :
  first_surface_empty (VectorObject.surfaces o) ->
  VectorObject.updateSurfaceZPos o
  = Raised ZeroDivisionError
      (VectorObject.set_surfaces o (VectorObject.surfaces o)).
Proof.
  intros (s0 & rest & Hss & Hn). unfold VectorObject.updateSurfaceZPos.
  rewrite Hss. cbn [VectorObject.update_loop].
  unfold VectorObject.surface_zpos. rewrite Hn. reflexivity.
Qed.

Lemma display_raises (s : t) (r : ref) (rest : list ref) :
  VectorObjs s = r :: rest ->
  first_surface_empty (VectorObject.surfaces (objects s r)) ->
  exists s',
    display s = Raised ZeroDivisionError s'
    /\ locks s' = S (locks s)
    /\ calls s' = calls s ++ [screen_lock; screen_fill (backgroundColor s)]
    /\ running s' = running s.
Proof.
  intros Hrefs Hempty. rewrite display_unfold, Hrefs.
  cbn [for_each]. unfold and_then, display_obj, and_then, update_obj.
  cbn [do_call emit objects].
  rewrite (updateSurfaceZPos_first_empty _ Hempty).
  eexists. split; [reflexivity|].
  cbn [store do_call emit locks calls running backgroundColor].
  split; [reflexivity|]. split; [|reflexivity].
  rewrite <- app_assoc. reflexivity.
Qed.

(** X16: when the first object of the scene has a first surface with
    no vertex index, the frame raises ZeroDivisionError in the depth
    pass: the screen has been locked and cleared but nothing is drawn
    or presented, the screen is left locked, and [run] ends with that
    error, without closing the display. *)
Theorem frame_raises_with_screen_locked
    (s : t) (r : ref) (rest : list ref) :
  VectorObjs s = r :: rest ->
  first_surface_empty (VectorObject.surfaces (objects s r)) ->
  exists s',
    frame s = Raised ZeroDivisionError s'
    /\ locks s' = S (locks s)
    /\ calls s' = calls s ++ [screen_lock; screen_fill (backgroundColor s)]
    /\ (running s = true -> paused s = false ->
        forall more, run ([] :: more) s = Raised ZeroDivisionError s').
Proof.
  intros Hrefs Hempty.
  destruct (rotate_fold (VectorObjs s) s r) as (Ho & _ & _ & Hv & _ & _ & Hc).
  destruct (rotate_screen (VectorObjs s) s) as (Hl & Hb & _).
  fold (rotate s) in Ho, Hv, Hc, Hl, Hb.
  destruct (display_raises (rotate s) r rest) as (s' & E & El & Ec & _).
  { now rewrite Hv. }
  { rewrite Ho.
    destruct (advance_iter_shape (zScale s) (midScreen s)
                (occurrences (VectorObjs s) r) (objects s r)) as (_ & -> & _).
    exact Hempty. }
  assert (Ef : frame s = Raised ZeroDivisionError s').
  { rewrite frame_unfold. unfold after_rotate, and_then. now rewrite E. }
  exists s'. split; [exact Ef|].
  split; [now rewrite El, Hl|].
  split; [now rewrite Ec, Hc, Hb|].
  intros Hrun Hpau more. cbn [run]. rewrite Hrun. unfold and_then.
  rewrite iteration_running; [|exact Hpau].
  change (handle_events [] s) with s. now rewrite Ef.
Qed.

Lemma frame_raises_with_screen_locked_witness :
  exists s',
    frame viewer_with_empty_surface = Raised ZeroDivisionError s'
    /\ locks s' = S (locks viewer_with_empty_surface)
    /\ calls s'
       = calls viewer_with_empty_surface
         ++ [screen_lock;
             screen_fill (backgroundColor viewer_with_empty_surface)]
    /\ (running viewer_with_empty_surface = true ->
        paused viewer_with_empty_surface = false ->
        forall more,
          run ([] :: more) viewer_with_empty_surface
          = Raised ZeroDivisionError s').
Proof.
  apply (frame_raises_with_screen_locked viewer_with_empty_surface 0%nat []).
  - reflexivity.
  - eexists. eexists. split; reflexivity.
Defined.

End Drawing.


(** ** Orientation over several frames *)

Section Turns.

Import VectorObject.

Lemma same_turn_refl (a : R) : same_turn a a.
Proof. split; reflexivity. Qed.

Lemma same_turn_trans (a b c : R) :
  same_turn a b -> same_turn b c -> same_turn a c.
Proof. intros [H1 H2] [H3 H4]. split; congruence. Qed.

Lemma same_turn_wrap_once (a : R) : same_turn (wrap_once a) a.
Proof. apply wrap_once_sin_cos. Qed.

Lemma radians_plus (a v : R) :
  degrees_to_radians (a + v) = degrees_to_radians a + degrees_to_radians v.
Proof. unfold degrees_to_radians. field. Qed.

Lemma same_turn_plus (a b v : R) :
  same_turn a b -> same_turn (a + v) (b + v).
Proof.
  intros [Hs Hc]. unfold same_turn.
  rewrite !radians_plus, !sin_plus, !cos_plus, Hs, Hc. split; reflexivity.
Qed.

Lemma euler_xyz_same_turn (u v : vec3) :
  same_turn3 u v -> euler_xyz u = euler_xyz v.
Proof.
  destruct u as [[a b] c]. destruct v as [[x y] z].
  intros ([Hsa Hca] & [Hsb Hcb] & [Hsc Hcc]).
  unfold euler_xyz, rot_x, rot_y, rot_z.
  now rewrite Hsa, Hca, Hsb, Hcb, Hsc, Hcc.
Qed.

Lemma increaseAngles_rotateSpeed (o : t) :
  rotateSpeed (increaseAngles o) = rotateSpeed o.
Proof. reflexivity. Qed.

Lemma iter_increaseAngles_rotateSpeed (n : nat) (o : t) :
  rotateSpeed (Nat.iter n increaseAngles o) = rotateSpeed o.
Proof.
  induction n as [|n IH]; [reflexivity|].
  now rewrite Nat.iter_succ, increaseAngles_rotateSpeed.
Qed.

Lemma iter_increaseAngles_same_turn (n : nat) (o : t) :
  same_turn3 (angles (Nat.iter n increaseAngles o))
    (add3 (angles o) (scale3 (rotateSpeed o) (INR n))).
Proof.
  induction n as [|n IH].
  - cbn [Nat.iter nat_rect INR].
    destruct (angles o) as [[a b] c]. destruct (rotateSpeed o) as [[x y] z].
    cbn [scale3 add3 same_turn3].
    replace (a + x * 0) with a by ring.
    replace (b + y * 0) with b by ring.
    replace (c + z * 0) with c by ring.
    repeat split.
  - rewrite Nat.iter_succ, increaseAngles_angles,
      iter_increaseAngles_rotateSpeed, S_INR.
    destruct (angles (Nat.iter n increaseAngles o)) as [[a' b'] c'].
    destruct (angles o) as [[a b] c]. destruct (rotateSpeed o) as [[x y] z].
    cbn [scale3 add3 same_turn3] in *.
    destruct IH as (Ha & Hb & Hc).
    replace (a + x * (INR n + 1)) with (a + x * INR n + x) by ring.
    replace (b + y * (INR n + 1)) with (b + y * INR n + y) by ring.
    replace (c + z * (INR n + 1)) with (c + z * INR n + z) by ring.
    repeat split;
      (eapply same_turn_trans; [apply same_turn_wrap_once|]);
      now apply same_turn_plus.
Qed.

(** X17: the wrap of [increaseAngles] never shows in the rotation,
    whatever the velocity: after [n] advances, the matrix built by
    [setRotationMatrix] is the X-then-Y-then-Z composition at the
    starting angles plus [n] times the velocity. *)
Theorem rotation_after_n_frames (n : nat) (o : t) :
  rotationMatrix (setRotationMatrix (Nat.iter n increaseAngles o))
  = euler_xyz (add3 (angles o) (scale3 (rotateSpeed o) (INR n))).
Proof.
  rewrite setRotationMatrix_matrix.
  apply euler_xyz_same_turn, iter_increaseAngles_same_turn.
Qed.




End Turns.


(** ** Depth order and position *)

Section SortShift.

Context {A : Type}.
Variable key : A -> R.
Variable shift : A -> A.
Variable c : R.
Hypothesis key_shift : forall x, key (shift x) = key x + c.




End SortShift.


Section DepthAndPosition.

Import VectorObject.








End DepthAndPosition.
